(** * A first-person camera controller with ray-cast collision gating

    Shallow embedding of [KeyControls.js], in its last revision (the one with
    [translateViewZ], [translateViewX], [rotateView] and [updateView]) and, in
    [Earlier], in the revision before it, whose [update] moves without
    probing, and of what [js/main.js] runs after its set-up: [render] and the
    callback of the loader.

    Conventions of the embedding.

    - JavaScript numbers are idealised as rationals ([Q]): sums, products and
      comparisons are exact, there is no rounding, no NaN and no infinity.
      Key codes are integers ([Z]).
    - JavaScript objects that are reached through more than one name live in a
      store ([gmap ref Object3D]): the camera is at once the global [camera],
      the parameter [camera] of the constructor of the controller, the
      controller's [this.camera] and an element of [scene.children].
    - A property read on [undefined] throws; every function that reads a
      global or dereferences an object returns in the [result] type.
    - three.js itself is a collaborator of the controller.  Its vector algebra
      is written out; what needs square roots, trigonometry or mesh geometry
      is a field of the class [Renderer]. *)

From Stdlib Require Import QArith Qminmax ZArith List Lia Lqa.
From stdpp Require Import base option list gmap.

Open Scope Q_scope.

(** ** JavaScript runtime *)

Inductive JsError : Type :=
| TypeError.

Inductive result (A : Type) : Type :=
| Ok (a : A)
| Throw (e : JsError).

Arguments Ok {A} a.
Arguments Throw {A} e.

(** State and exceptions: a computation reads and writes a state [S] and
    either returns a value or throws. *)
Definition M (S A : Type) : Type := S -> result (A * S).

Definition ret {S A : Type} (a : A) : M S A :=
  fun s => Ok (a, s).

Definition bind {S A B : Type} (m : M S A) (f : A -> M S B) : M S B :=
  fun s => match m s with
           | Ok (a, s') => f a s'
           | Throw e => Throw e
           end.

Definition throw {S A : Type} (e : JsError) : M S A :=
  fun _ => Throw e.

Definition get {S : Type} : M S S :=
  fun s => Ok (s, s).

Definition put {S : Type} (s : S) : M S unit :=
  fun _ => Ok (tt, s).

Definition modify {S : Type} (f : S -> S) : M S unit :=
  fun s => Ok (tt, f s).

(** [o.p] where [o] may be [undefined]. *)
Definition defined {S A : Type} (o : option A) : M S A :=
  match o with
  | Some a => ret a
  | None => throw TypeError
  end.

(** [if (c) stmt] *)
Definition when {S : Type} (c : bool) (m : M S unit) : M S unit :=
  if c then m else ret tt.

Declare Scope js_scope.
Delimit Scope js_scope with js.

Notation "x <- m ;; k" := (bind m (fun x => k))
  (at level 100, m at next level, right associativity) : js_scope.
Notation "m ;;; k" := (bind m (fun _ => k))
  (at level 100, right associativity) : js_scope.

(** A value that is either [undefined] or a boolean; [!v] is never
    [undefined]. *)
Definition ToBoolean (v : option bool) : bool :=
  match v with
  | Some b => b
  | None => false
  end.

Definition js_not (v : option bool) : option bool :=
  Some (negb (ToBoolean v)).

(** [Math.PI] is the double nearest to pi; it is a rational number. *)
Definition Math_PI : Q := 884279719003555 # 281474976710656.

Definition Math_max (a b : Q) : Q := Qmax a b.
Definition Math_min (a b : Q) : Q := Qmin a b.

(** ** three.js: vectors and quaternions *)

Record Vector3 : Type := mkVector3 { x : Q; y : Q; z : Q }.

Record Quaternion : Type := mkQuaternion { qx : Q; qy : Q; qz : Q; qw : Q }.

Definition multiplyScalar (v : Vector3) (s : Q) : Vector3 :=
  mkVector3 (x v * s) (y v * s) (z v * s).

Definition add (v w : Vector3) : Vector3 :=
  mkVector3 (x v + x w) (y v + y w) (z v + z w).

Definition cross (a b : Vector3) : Vector3 :=
  mkVector3 (y a * z b - z a * y b)
            (z a * x b - x a * z b)
            (x a * y b - y a * x b).

Definition lengthSq (v : Vector3) : Q :=
  x v * x v + y v * y v + z v * z v.

(** [v.clone()]: vectors are values here, a copy is the vector. *)
Definition clone (v : Vector3) : Vector3 := v.

(** Rotation of [v] by [q]: the vector part of [q * v * q^-1] for a unit
    quaternion. *)
Definition applyQuaternion (v : Vector3) (q : Quaternion) : Vector3 :=
  let ix := qw q * x v + qy q * z v - qz q * y v in
  let iy := qw q * y v + qz q * x v - qx q * z v in
  let iz := qw q * z v + qx q * y v - qy q * x v in
  let iw := - qx q * x v - qy q * y v - qz q * z v in
  mkVector3 (ix * qw q + iw * - qx q + iy * - qz q - iz * - qy q)
            (iy * qw q + iw * - qy q + iz * - qx q - ix * - qz q)
            (iz * qw q + iw * - qz q + ix * - qy q - iy * - qx q).

(** [THREE.Math.degToRad] *)
Definition degToRad (degrees : Q) : Q := degrees * (Math_PI / 180).

(** ** three.js: the scene graph *)

(** The constructors whose instances main.js puts in the scene, and their
    prototype chain. *)
Module Ctor.

Inductive t : Type :=
| Object3D
| Mesh
| Camera
| PerspectiveCamera
| Light
| DirectionalLight
| Scene.

Definition eqb (c d : t) : bool :=
  match c, d with
  | Object3D, Object3D | Mesh, Mesh | Camera, Camera
  | PerspectiveCamera, PerspectiveCamera | Light, Light
  | DirectionalLight, DirectionalLight | Scene, Scene => true
  | _, _ => false
  end.

(** [C.prototype = Object.create(P.prototype)]; [None] is
    [Object.prototype]. *)
Definition proto (c : t) : option t :=
  match c with
  | Object3D => None
  | Mesh => Some Object3D
  | Camera => Some Object3D
  | PerspectiveCamera => Some Camera
  | Light => Some Object3D
  | DirectionalLight => Some Light
  | Scene => Some Object3D
  end.

(** Does the prototype chain that starts at [c] reach [d]?  The chain has
    at most three links. *)
Fixpoint reaches (fuel : nat) (c d : t) : bool :=
  eqb c d ||
  match fuel with
  | O => false
  | S fuel' => match proto c with
               | Some p => reaches fuel' p d
               | None => false
               end
  end.

End Ctor.

Inductive Geometry : Type :=
| CubeGeometry (width height depth : Q).

(** A node of the scene graph.  Nodes below the top level of the scene are
    reached only through their parent and are stored in it. *)
#[warnings="-register-all"]
Inductive Object3D : Type :=
  mkObject3D {
    constructor : Ctor.t;
    position : Vector3;
    quaternion : Quaternion;
    up : Vector3;
    geometry : option Geometry;
    children : list Object3D
  }.

(** [o instanceof C] *)
Definition instanceof (o : Object3D) (c : Ctor.t) : bool :=
  Ctor.reaches 3 (constructor o) c.

Definition set_position (p : Vector3) (o : Object3D) : Object3D :=
  mkObject3D (constructor o) p (quaternion o) (up o) (geometry o) (children o).

Definition set_quaternion (q : Quaternion) (o : Object3D) : Object3D :=
  mkObject3D (constructor o) (position o) q (up o) (geometry o) (children o).

(** Modelled from the spec: [Object3D.translateOnAxis], [translateX] and
    [translateZ] of three.js, which is not under src/: "translate along a
    named local axis by a signed distance".  The axis is rotated into world
    space by the node's orientation and the position moves along it. *)
Definition translateOnAxis (axis : Vector3) (distance : Q) (o : Object3D) : Object3D :=
  set_position
    (add (position o) (multiplyScalar (applyQuaternion axis (quaternion o)) distance))
    o.

Definition translateX (distance : Q) (o : Object3D) : Object3D :=
  translateOnAxis (mkVector3 1 0 0) distance o.

Definition translateZ (distance : Q) (o : Object3D) : Object3D :=
  translateOnAxis (mkVector3 0 0 1) distance o.

Record Ray : Type := mkRay { origin : Vector3; direction : Vector3 }.

(** The range of a ray caster: from [near] to [far], where no [far] is
    [Infinity]. *)
Record Raycaster : Type := mkRaycaster { ray : Ray; near : Q; far : option Q }.

(** Modelled from the spec: [new THREE.Raycaster(origin, direction, near, far)]
    of three.js, which is not under src/: a ray "with minimum distance 0 and
    maximum distance distance + collisionMargin".  The constructor of three.js
    stores [near || 0] and [far || Infinity]: a bound that is 0 counts as not
    given, so that a maximum of exactly 0 is no maximum. *)
Definition new_Raycaster (o d : Vector3) (n f : Q) : Raycaster :=
  mkRaycaster (mkRay o d)
              (if Qeq_bool n 0 then 0 else n)
              (if Qeq_bool f 0 then None else Some f).

(** What the controller calls and this development does not look into: the
    trigonometry of the host, the orientation that makes a node at [eye] with
    the given [up] face a point, and the distances along a ray at which it
    meets the geometry of one node. *)
Class Renderer : Type := {
  Math_sin : Q -> Q;
  Math_cos : Q -> Q;
  lookAt_quaternion : forall (eye target up : Vector3), Quaternion;
  raycast : Ray -> Object3D -> list Q
}.

(** Modelled from the spec: [Object3D.lookAt] of three.js, which is not under
    src/: "an operation to reorient so a given world point is centered in
    view".  Only the orientation is written. *)
Definition lookAt `{Renderer} (v : Vector3) (o : Object3D) : Object3D :=
  set_quaternion (lookAt_quaternion (position o) v (up o)) o.

(** A node followed by everything below it. *)
Fixpoint descendants (o : Object3D) : list Object3D :=
  o :: flat_map descendants (children o).

Definition degenerate (r : Ray) : bool :=
  Qeq_bool (lengthSq (direction r)) 0.

(** Every distance at which the ray meets one of [objects] (and, when
    [recursive], anything below them), whatever the range of the probe. *)
Definition rayHits `{Renderer} (r : Ray) (objects : list Object3D) (recursive : bool) : list Q :=
  if degenerate r then []
  else flat_map (raycast r) (if recursive then flat_map descendants objects else objects).

Definition inRange (rc : Raycaster) (d : Q) : bool :=
  Qle_bool (near rc) d &&
  match far rc with
  | Some f => Qle_bool d f
  | None => true
  end.

(** Modelled from the spec: [Raycaster.intersectObjects] of three.js, which
    is not under src/: "Intersect the ray against all collidables", each
    "evaluated recursively including descendants"; the intersections are those
    "found within the probe range", from the minimum to the maximum distance
    of the ray; "an empty collidable set or a zero-length direction vector
    simply yields no intersections". *)
Definition intersectObjects `{Renderer} (rc : Raycaster) (objects : list Object3D) (recursive : bool) : list Q :=
  List.filter (inRange rc) (rayHits (ray rc) objects recursive).

(** ** The globals of main.js *)

Definition ref : Type := nat.

(** [scene]: what the controller reads of it is the array of its children,
    which holds references. *)
Record Scene : Type := mkScene { scene_children : list ref }.

(** [var scene, camera, ...]: a global is [undefined] until [init] assigns
    it.  [store] holds the objects the references denote.  The controller
    reads [scene]; it never reads the global [camera], which [render] hands
    to the renderer. *)
Module window.

Record t : Type := mk {
  store : gmap ref Object3D;
  scene : option Scene;
  camera : option ref
}.

Definition set_store (h : gmap ref Object3D) (w : t) : t :=
  mk h (scene w) (camera w).

Definition set_scene (s : option Scene) (w : t) : t :=
  mk (store w) s (camera w).

End window.

(** ** KeyControls.js *)

Record KeyEvent : Type := mkKeyEvent { keyCode : Z }.

Module KeyControls.

(** The fields the constructor sets, and [freeze], which it does not. *)
Record t : Type := mk {
  camera : ref;
  target : Vector3;
  movementSpeed : Q;
  lookSpeed : Q;
  lookVertical : bool;
  invertVertical : bool;
  verticalMin : Q;
  verticalMax : Q;
  lat : Q;
  lon : Q;
  phi : Q;
  theta : Q;
  translateForward : bool;
  translateBackward : bool;
  translateLeft : bool;
  translateRight : bool;
  yawRight : bool;
  yawLeft : bool;
  pitchUp : bool;
  pitchDown : bool;
  collisionMargin : Q;
  freeze : option bool
}.

Definition set_target (v : Vector3) (k : t) : t :=
  mk (camera k) v (movementSpeed k) (lookSpeed k) (lookVertical k)
     (invertVertical k) (verticalMin k) (verticalMax k) (lat k) (lon k)
     (phi k) (theta k) (translateForward k) (translateBackward k)
     (translateLeft k) (translateRight k) (yawRight k) (yawLeft k)
     (pitchUp k) (pitchDown k) (collisionMargin k) (freeze k).

Definition set_lat (v : Q) (k : t) : t :=
  mk (camera k) (target k) (movementSpeed k) (lookSpeed k) (lookVertical k)
     (invertVertical k) (verticalMin k) (verticalMax k) v (lon k)
     (phi k) (theta k) (translateForward k) (translateBackward k)
     (translateLeft k) (translateRight k) (yawRight k) (yawLeft k)
     (pitchUp k) (pitchDown k) (collisionMargin k) (freeze k).

Definition set_phi (v : Q) (k : t) : t :=
  mk (camera k) (target k) (movementSpeed k) (lookSpeed k) (lookVertical k)
     (invertVertical k) (verticalMin k) (verticalMax k) (lat k) (lon k)
     v (theta k) (translateForward k) (translateBackward k)
     (translateLeft k) (translateRight k) (yawRight k) (yawLeft k)
     (pitchUp k) (pitchDown k) (collisionMargin k) (freeze k).

Definition set_theta (v : Q) (k : t) : t :=
  mk (camera k) (target k) (movementSpeed k) (lookSpeed k) (lookVertical k)
     (invertVertical k) (verticalMin k) (verticalMax k) (lat k) (lon k)
     (phi k) v (translateForward k) (translateBackward k)
     (translateLeft k) (translateRight k) (yawRight k) (yawLeft k)
     (pitchUp k) (pitchDown k) (collisionMargin k) (freeze k).

Definition set_translateForward (v : bool) (k : t) : t :=
  mk (camera k) (target k) (movementSpeed k) (lookSpeed k) (lookVertical k)
     (invertVertical k) (verticalMin k) (verticalMax k) (lat k) (lon k)
     (phi k) (theta k) v (translateBackward k)
     (translateLeft k) (translateRight k) (yawRight k) (yawLeft k)
     (pitchUp k) (pitchDown k) (collisionMargin k) (freeze k).

Definition set_translateBackward (v : bool) (k : t) : t :=
  mk (camera k) (target k) (movementSpeed k) (lookSpeed k) (lookVertical k)
     (invertVertical k) (verticalMin k) (verticalMax k) (lat k) (lon k)
     (phi k) (theta k) (translateForward k) v
     (translateLeft k) (translateRight k) (yawRight k) (yawLeft k)
     (pitchUp k) (pitchDown k) (collisionMargin k) (freeze k).

Definition set_translateLeft (v : bool) (k : t) : t :=
  mk (camera k) (target k) (movementSpeed k) (lookSpeed k) (lookVertical k)
     (invertVertical k) (verticalMin k) (verticalMax k) (lat k) (lon k)
     (phi k) (theta k) (translateForward k) (translateBackward k)
     v (translateRight k) (yawRight k) (yawLeft k)
     (pitchUp k) (pitchDown k) (collisionMargin k) (freeze k).

Definition set_translateRight (v : bool) (k : t) : t :=
  mk (camera k) (target k) (movementSpeed k) (lookSpeed k) (lookVertical k)
     (invertVertical k) (verticalMin k) (verticalMax k) (lat k) (lon k)
     (phi k) (theta k) (translateForward k) (translateBackward k)
     (translateLeft k) v (yawRight k) (yawLeft k)
     (pitchUp k) (pitchDown k) (collisionMargin k) (freeze k).

Definition set_yawRight (v : bool) (k : t) : t :=
  mk (camera k) (target k) (movementSpeed k) (lookSpeed k) (lookVertical k)
     (invertVertical k) (verticalMin k) (verticalMax k) (lat k) (lon k)
     (phi k) (theta k) (translateForward k) (translateBackward k)
     (translateLeft k) (translateRight k) v (yawLeft k)
     (pitchUp k) (pitchDown k) (collisionMargin k) (freeze k).

Definition set_yawLeft (v : bool) (k : t) : t :=
  mk (camera k) (target k) (movementSpeed k) (lookSpeed k) (lookVertical k)
     (invertVertical k) (verticalMin k) (verticalMax k) (lat k) (lon k)
     (phi k) (theta k) (translateForward k) (translateBackward k)
     (translateLeft k) (translateRight k) (yawRight k) v
     (pitchUp k) (pitchDown k) (collisionMargin k) (freeze k).

Definition set_freeze (v : option bool) (k : t) : t :=
  mk (camera k) (target k) (movementSpeed k) (lookSpeed k) (lookVertical k)
     (invertVertical k) (verticalMin k) (verticalMax k) (lat k) (lon k)
     (phi k) (theta k) (translateForward k) (translateBackward k)
     (translateLeft k) (translateRight k) (yawRight k) (yawLeft k)
     (pitchUp k) (pitchDown k) (collisionMargin k) v.

(** [new THREE.KeyControls(camera)] *)
Definition new (camera : ref) : t :=
  {| camera := camera;
     target := mkVector3 0 0 0;
     movementSpeed := 1;
     lookSpeed := 1 # 100;
     lookVertical := true;
     invertVertical := false;
     verticalMin := 0;
     verticalMax := Math_PI;
     lat := 0;
     lon := 0;
     phi := 0;
     theta := 0;
     translateForward := false;
     translateBackward := false;
     translateLeft := false;
     translateRight := false;
     yawRight := false;
     yawLeft := false;
     pitchUp := false;
     pitchDown := false;
     collisionMargin := 5;
     freeze := None |}.

Definition onKeyDown (event : KeyEvent) (this : t) : t :=
  match keyCode event with
  | 87 (* W *) => set_translateForward true this
  | 65 (* A *) => set_translateLeft true this
  | 83 (* S *) => set_translateBackward true this
  | 68 (* D *) => set_translateRight true this
  | 38 (* up *) => set_translateForward true this
  | 40 (* down *) => set_translateBackward true this
  | 37 (* left *) => set_yawLeft true this
  | 81 (* Q *) => set_yawLeft true this
  | 39 (* right *) => set_yawRight true this
  | 69 (* E *) => set_yawRight true this
  | 27 (* esc *) => set_freeze (js_not (freeze this)) this
  | _ => this
  end%Z.

Definition onKeyUp (event : KeyEvent) (this : t) : t :=
  match keyCode event with
  | 87 (* W *) => set_translateForward false this
  | 65 (* A *) => set_translateLeft false this
  | 83 (* S *) => set_translateBackward false this
  | 68 (* D *) => set_translateRight false this
  | 38 (* up *) => set_translateForward false this
  | 40 (* down *) => set_translateBackward false this
  | 37 (* left *) => set_yawLeft false this
  | 81 (* Q *) => set_yawLeft false this
  | 39 (* right *) => set_yawRight false this
  | 69 (* E *) => set_yawRight false this
  | 27 (* esc *) => set_freeze (js_not (freeze this)) this
  | _ => this
  end%Z.

(** The receiver of a method call and the globals its body reads. *)
Record state : Type := mkState { this : t; win : window.t }.

Section Methods.

Context `{Renderer}.

Local Open Scope js_scope.

Definition get_this : M state t :=
  fun s => Ok (this s, s).

(** [this.field = v] *)
Definition assign (f : t -> t) : M state unit :=
  modify (fun s => mkState (f (this s)) (win s)).

(** The object a reference denotes. *)
Definition deref (r : ref) : M state Object3D :=
  s <- get ;; defined (window.store (win s) !! r).

(** A method of the object behind [r] that writes to it in place. *)
Definition update (r : ref) (f : Object3D -> Object3D) : M state unit :=
  o <- deref r ;;
  modify (fun s => mkState (this s)
                     (window.set_store (<[r := f o]> (window.store (win s))) (win s))).

Definition translateViewZ_direction (forward : bool) (q : Quaternion) : Vector3 :=
  let cameraDirVector := applyQuaternion (mkVector3 0 0 (-1)) q in
  if forward then cameraDirVector else multiplyScalar (clone cameraDirVector) (-1).

Definition translateViewX_direction (right : bool) (q : Quaternion) : Vector3 :=
  let cameraDirVector := applyQuaternion (mkVector3 0 0 (-1)) q in
  let upVector := mkVector3 0 1 0 in
  if right then cross (clone cameraDirVector) upVector
  else cross (clone upVector) cameraDirVector.

Definition getCollideableObjects : M state (list ref) :=
  s <- get ;;
  scene <- defined (window.scene (win s)) ;;
  ret (List.filter
         (fun child =>
            match window.store (win s) !! child with
            | Some o => instanceof o Ctor.Mesh || instanceof o Ctor.Object3D
            | None => false
            end)
         (scene_children scene)).

(** [camera], without [this], is the parameter of the constructor
    ([THREE.KeyControls = function(camera, domElement)]).  The constructor
    stores it in [this.camera] and nothing assigns either of them again: both
    denote the object behind the field [camera]. *)
Definition translateViewZ (forward : bool) (units : Q) : M state unit :=
  s <- get ;;
  this <- get_this ;;
  camera_parameter <- deref (camera this) ;;
  modelObjects <- getCollideableObjects ;;
  let directionVector := translateViewZ_direction forward (quaternion camera_parameter) in
  this_camera <- deref (camera this) ;;
  let raycaster :=
    new_Raycaster (position this_camera) directionVector 0 (units + collisionMargin this) in
  let intersections :=
    intersectObjects raycaster (omap (fun r => window.store (win s) !! r) modelObjects) true in
  when (length intersections <? 1)%nat
       (update (camera this) (translateZ ((if forward then -1 else 1) * units))).

Definition translateViewX (right : bool) (units : Q) : M state unit :=
  s <- get ;;
  this <- get_this ;;
  camera_parameter <- deref (camera this) ;;
  modelObjects <- getCollideableObjects ;;
  let directionVector := translateViewX_direction right (quaternion camera_parameter) in
  this_camera <- deref (camera this) ;;
  let raycaster :=
    new_Raycaster (position this_camera) directionVector 0 (units + collisionMargin this) in
  let intersections :=
    intersectObjects raycaster (omap (fun r => window.store (win s) !! r) modelObjects) true in
  when (length intersections <? 1)%nat
       (update (camera this) (translateX ((if right then 1 else -1) * units))).

Definition translateView (timeDelta : Q) : M state unit :=
  this <- get_this ;;
  let translationSpeed := timeDelta * movementSpeed this in
  (this <- get_this ;; when (translateForward this) (translateViewZ true translationSpeed)) ;;;
  (this <- get_this ;; when (translateBackward this) (translateViewZ false translationSpeed)) ;;;
  (this <- get_this ;; when (translateLeft this) (translateViewX false translationSpeed)) ;;;
  (this <- get_this ;; when (translateRight this) (translateViewX true translationSpeed)).

Definition rotateView (timeDelta : Q) : M state unit :=
  this <- get_this ;;
  let actualLookSpeed := lookSpeed this in
  (this <- get_this ;;
   when (yawLeft this) (assign (set_theta (theta this - actualLookSpeed)))) ;;;
  (this <- get_this ;;
   when (yawRight this) (assign (set_theta (theta this + actualLookSpeed)))) ;;;
  (this <- get_this ;;
   when (lookVertical this)
        (let invertfactor := if invertVertical this then 1 else -1 in
         (this <- get_this ;;
          when (pitchUp this) (assign (set_lat (lat this + invertfactor * (1 # 2))))) ;;;
         (this <- get_this ;;
          when (pitchDown this) (assign (set_lat (lat this - invertfactor * (1 # 2))))))) ;;;
  (this <- get_this ;;
   assign (set_lat (Math_max (-89) (Math_min 89 (lat this))))) ;;;
  (this <- get_this ;;
   assign (set_phi (degToRad (90 - lat this)))) ;;;
  this <- get_this ;;
  this_camera <- deref (camera this) ;;
  let position := position this_camera in
  let distanceAhead := 100 in
  assign (set_target
            (mkVector3
               (x position + distanceAhead * Math_sin (phi this) * Math_cos (theta this))
               (y position + distanceAhead * Math_cos (phi this))
               (z position + distanceAhead * Math_sin (phi this) * Math_sin (theta this)))) ;;;
  this <- get_this ;;
  update (camera this) (lookAt (target this)).

Definition updateView (timeDelta : Q) : M state unit :=
  translateView timeDelta ;;;
  rotateView timeDelta.

End Methods.

End KeyControls.

(** ** main.js *)

Module main.

Section Program.

Context `{Renderer}.

Local Open Scope js_scope.

(** The globals before anything has assigned them. *)
Definition uninitialised : window.t :=
  window.mk ∅ None None.

(** An object that comes from outside, as the one the loader has built,
    gets a reference that denotes nothing yet. *)
Definition new_object (o : Object3D) : M window.t ref :=
  fun w =>
    let r := fresh (dom (window.store w)) in
    Ok (r, window.set_store (<[r := o]> (window.store w)) w).

(** Modelled from the spec: [Scene.add] of three.js, which is not under
    src/.  The spec has no more on it than that the scene is "a scene graph it
    can query for collidable objects"; as in three.js, a node that has no
    parent becomes the last child of the scene.  three.js also adds the
    [target] of a light that has one; the nodes of this development carry no
    such field, and the object that the loader hands to its callback is a
    group of meshes and no light. *)
Definition scene_add (r : ref) : M window.t unit :=
  w <- get ;;
  scene <- defined (window.scene w) ;;
  put (window.set_scene (Some (mkScene (scene_children scene ++ [r]))) w).

(** The callback given to [loader.load] in [buildScene]. *)
Definition onLoad (object : Object3D) : M window.t unit :=
  r <- new_object (set_position (mkVector3 250 10 (z (position object))) object) ;;
  scene_add r.

(** [clock.getDelta()] is an input of the frame.  The call that repaints
    the scene is three.js and is not part of the embedding; neither are
    [init] and the rest of [buildScene], which create the WebGL renderer, the
    lights and the elements of the page. *)
Definition render (delta : Q) : M KeyControls.state unit :=
  KeyControls.updateView delta.

End Program.

End main.

(** ** A renderer to run the controller on

    Boxes aligned with the axes, met by the slab method; truncated series for
    the trigonometry; cameras that face down or up the z axis. *)

Module Bench.

Definition sin7 (a : Q) : Q :=
  a - a * a * a / 6 + a * a * a * a * a / 120 - a * a * a * a * a * a * a / 5040.

Definition cos6 (a : Q) : Q :=
  1 - a * a / 2 + a * a * a * a / 24 - a * a * a * a * a * a / 720.

Definition heading (eye target up : Vector3) : Quaternion :=
  if Qle_bool (z target) (z eye) then mkQuaternion 0 0 0 1 else mkQuaternion 0 1 0 0.

(** The parameters at which a line [o + t d] is inside [lo, hi] on one
    axis: an interval, all of the line, or nothing. *)
Inductive span : Type :=
| Nowhere
| Everywhere
| Between (t0 t1 : Q).

Definition slab (o d lo hi : Q) : span :=
  if Qeq_bool d 0 then
    if Qle_bool lo o && Qle_bool o hi then Everywhere else Nowhere
  else
    let a := (lo - o) / d in
    let b := (hi - o) / d in
    Between (Qmin a b) (Qmax a b).

Definition meet (s1 s2 : span) : span :=
  match s1, s2 with
  | Nowhere, _ | _, Nowhere => Nowhere
  | Everywhere, s | s, Everywhere => s
  | Between a b, Between c d =>
      if Qle_bool (Qmax a c) (Qmin b d) then Between (Qmax a c) (Qmin b d) else Nowhere
  end.

Definition box_hits (r : Ray) (centre : Vector3) (w h d : Q) : list Q :=
  let sx := slab (x (origin r)) (x (direction r)) (x centre - w / 2) (x centre + w / 2) in
  let sy := slab (y (origin r)) (y (direction r)) (y centre - h / 2) (y centre + h / 2) in
  let sz := slab (z (origin r)) (z (direction r)) (z centre - d / 2) (z centre + d / 2) in
  match meet sx (meet sy sz) with
  | Between t0 t1 => List.filter (Qle_bool 0) [Qred t0; Qred t1]
  | _ => []
  end.

Definition hits (r : Ray) (o : Object3D) : list Q :=
  match geometry o with
  | Some (CubeGeometry w h d) => box_hits r (position o) w h d
  | None => []
  end.

Definition renderer : Renderer :=
  {| Math_sin := sin7;
     Math_cos := cos6;
     lookAt_quaternion := heading;
     raycast := hits |}.

(** A node at the origin that faces down the z axis, and a box there. *)
Definition node (c : Ctor.t) : Object3D :=
  mkObject3D c (mkVector3 0 0 0) (mkQuaternion 0 0 0 1) (mkVector3 0 1 0) None [].

Definition box (g : Geometry) : Object3D :=
  mkObject3D Ctor.Mesh (mkVector3 0 0 0) (mkQuaternion 0 0 0 1) (mkVector3 0 1 0) (Some g) [].

(** A wall across the z axis, [dist] in front of a camera that stands at
    the origin and faces down the axis. *)
Definition wall (dist : Q) : Object3D :=
  set_position (mkVector3 0 0 (- dist - 1)) (box (CubeGeometry 1000 1000 2)).

Definition corridor (walls : list Object3D) : KeyControls.state :=
  let cam := node Ctor.PerspectiveCamera in
  let store : gmap ref Object3D :=
    <[0%nat := cam]> (list_to_map (imap (fun i o => (S i, o)) walls)) in
  KeyControls.mkState
    (KeyControls.new 0%nat)
    (window.mk store (Some (mkScene (seq 0 (S (length walls))))) (Some 0%nat)).

(** The camera of [corridor]. *)
Definition eye : Object3D :=
  node Ctor.PerspectiveCamera.

(** One wall, 50 ahead. *)
Definition hall : KeyControls.state :=
  corridor [wall 50].

(** W and the left arrow are down in [hall]. *)
Definition hall_walking : KeyControls.state :=
  KeyControls.mkState
    (KeyControls.onKeyDown (mkKeyEvent 37)
       (KeyControls.onKeyDown (mkKeyEvent 87) (KeyControls.this hall)))
    (KeyControls.win hall).




(** The state after a frame of a tenth of a second in [hall_walking]. *)
Definition hall_walked : KeyControls.state :=
  match @KeyControls.updateView renderer (1 # 10) hall_walking with
  | Ok (_, s) => s
  | Throw _ => hall_walking
  end.

(** The bench renderer in a world without geometry. *)
Definition fog : Renderer :=
  {| Math_sin := sin7;
     Math_cos := cos6;
     lookAt_quaternion := heading;
     raycast := fun _ _ => [] |}.

(** A light, which is an Object3D as much as a mesh is. *)
Definition lamp : Object3D :=
  set_position (mkVector3 (1 # 2) 1 (1 # 2)) (node Ctor.DirectionalLight).

(** [hall] with a light among the children of the scene. *)
Definition lit : KeyControls.state :=
  corridor [wall 50; lamp].


(** [hall] in a page that has not assigned [scene]. *)
Definition unstaged : KeyControls.state :=
  KeyControls.mkState (KeyControls.this hall) (window.set_scene None (KeyControls.win hall)).

End Bench.

(** ** Vocabulary of the properties *)

Import KeyControls.

(** The four calls that [translateView] makes. *)
Inductive Move : Type :=
| Forward
| Backward
| Left
| Right.

Definition attempt `{Renderer} (m : Move) (units : Q) : M state unit :=
  match m with
  | Forward => translateViewZ true units
  | Backward => translateViewZ false units
  | Left => translateViewX false units
  | Right => translateViewX true units
  end.

(** The direction of the ray of a move as the spec words it: "the camera's
    local forward unit vector (rotated into world space via the camera's
    current orientation) for forward/backward; the cross product of that
    forward vector with the world up vector for left/right", where forward is
    down the local z axis, backward is forward negated and left is up crossed
    with forward. *)
Definition probe_direction (m : Move) (q : Quaternion) : Vector3 :=
  let forward := applyQuaternion (mkVector3 0 0 (-1)) q in
  let up := mkVector3 0 1 0 in
  match m with
  | Forward => forward
  | Backward => multiplyScalar forward (-1)
  | Left => cross up forward
  | Right => cross forward up
  end.

(** The local axis of a move and the signed distance along it. *)
Definition local_axis (m : Move) : Vector3 :=
  match m with
  | Forward | Backward => mkVector3 0 0 1
  | Left | Right => mkVector3 1 0 0
  end.

Definition signed (m : Move) (units : Q) : Q :=
  match m with
  | Forward | Left => -1 * units
  | Backward | Right => 1 * units
  end.

(** The globals and the controller's camera denote objects: [global_camera]
    is the object behind the global [camera], [this_camera] the one behind
    [this.camera], [scene] the value of the global of that name.  This is the
    page as main.js sets it up; a move needs no more than [placed]. *)
Definition binds (s : state) (global_camera this_camera : Object3D) (scene : Scene) : Prop :=
  (exists c, window.camera (win s) = Some c /\
             window.store (win s) !! c = Some global_camera) /\
  window.scene (win s) = Some scene /\
  window.store (win s) !! camera (this s) = Some this_camera.

Definition allocated (s : state) (r : ref) : bool :=
  match window.store (win s) !! r with
  | Some _ => true
  | None => false
  end.

(** The same as a test. *)
Definition initialised (s : state) : bool :=
  match window.camera (win s), window.scene (win s) with
  | Some c, Some _ => allocated s c && allocated s (camera (this s))
  | _, _ => false
  end.

(** Every element of [scene.children] denotes an object. *)
Definition children_allocated (s : state) : bool :=
  match window.scene (win s) with
  | Some scene => forallb (allocated s) (scene_children scene)
  | None => false
  end.

(** The objects behind an array of references. *)
Definition objects (s : state) (rs : list ref) : list Object3D :=
  omap (fun r => window.store (win s) !! r) rs.

(** The state in which the object behind [this.camera] is [o]. *)
Definition with_camera (o : Object3D) (s : state) : state :=
  mkState (this s)
          (window.set_store (<[camera (this s) := o]> (window.store (win s))) (win s)).

(** [scene] is assigned and [this.camera] denotes [this_camera]: what a
    move reads. *)
Definition placed (s : state) (this_camera : Object3D) (scene : Scene) : Prop :=
  window.scene (win s) = Some scene /\
  window.store (win s) !! camera (this s) = Some this_camera.

(** The ray caster of a move of [units] when the object behind [this.camera]
    is [this_camera]. *)
Definition probe (m : Move) (units : Q) (s : state) (this_camera : Object3D) : Raycaster :=
  new_Raycaster (position this_camera)
                (probe_direction m (quaternion this_camera))
                0
                (units + collisionMargin (this s)).

(** The distances of [l] that lie between 0 and [reach]. *)
Definition within (reach : Q) (l : list Q) : list Q :=
  List.filter (fun d => Qle_bool 0 d && Qle_bool d reach) l.


(** The angles that [rotateView] computes. *)
Definition yawed (k : t) : Q :=
  let t1 := if yawLeft k then theta k - lookSpeed k else theta k in
  if yawRight k then t1 + lookSpeed k else t1.

(** The same as a step from one value of [theta] to the next. *)
Definition yaw_step (k : t) (th : Q) : Q :=
  let t1 := if yawLeft k then th - lookSpeed k else th in
  if yawRight k then t1 + lookSpeed k else t1.

Definition pitched (k : t) : Q :=
  if lookVertical k then
    let invertfactor := if invertVertical k then 1 else -1 in
    let l1 := if pitchUp k then lat k + invertfactor * (1 # 2) else lat k in
    if pitchDown k then l1 - invertfactor * (1 # 2) else l1
  else lat k.

Definition clamped (l : Q) : Q :=
  Math_max (-89) (Math_min 89 l).

(** The look-target as the spec words it: the point 100 units from the
    position along the direction of the spherical angles. *)
Definition look_target `{Renderer} (position : Vector3) (lat theta : Q) : Vector3 :=
  let phi := degToRad (90 - lat) in
  mkVector3 (x position + 100 * Math_sin phi * Math_cos theta)
            (y position + 100 * Math_cos phi)
            (z position + 100 * Math_sin phi * Math_sin theta).

(** What [rotateView] leaves in the controller, and in the whole state, when
    the object behind [this.camera] is [cam]. *)
Definition turned `{Renderer} (k : t) (position : Vector3) : t :=
  set_target (look_target position (clamped (pitched k)) (yawed k))
    (set_phi (degToRad (90 - clamped (pitched k)))
       (set_lat (clamped (pitched k))
          (set_theta (yawed k) k))).

Definition rotated `{Renderer} (s : state) (cam : Object3D) : state :=
  let k := turned (this s) (position cam) in
  with_camera (lookAt (target k) cam) (mkState k (win s)).

(** All eight motion flags are false. *)
Definition idle (k : t) : bool :=
  negb (translateForward k || translateBackward k || translateLeft k ||
        translateRight k || yawRight k || yawLeft k || pitchUp k || pitchDown k).

(** The controller once every flag has been cleared. *)
Definition released (k : t) : t :=
  mk (camera k) (target k) (movementSpeed k) (lookSpeed k) (lookVertical k)
     (invertVertical k) (verticalMin k) (verticalMax k) (lat k) (lon k)
     (phi k) (theta k) false false false false false false false false
     (collisionMargin k) (freeze k).

(** A frame in which the pitch flags have been written beforehand. *)
Definition set_pitch (up down : bool) (k : t) : t :=
  mk (camera k) (target k) (movementSpeed k) (lookSpeed k) (lookVertical k)
     (invertVertical k) (verticalMin k) (verticalMax k) (lat k) (lon k)
     (phi k) (theta k) (translateForward k) (translateBackward k)
     (translateLeft k) (translateRight k) (yawRight k) (yawLeft k)
     up down (collisionMargin k) (freeze k).

Definition pitch_frame `{Renderer} (f : bool * bool * Q) : M state unit :=
  bind (assign (set_pitch (fst (fst f)) (snd (fst f))))
       (fun _ => updateView (snd f)).

Fixpoint frames `{Renderer} (fs : list (bool * bool * Q)) : M state unit :=
  match fs with
  | [] => ret tt
  | f :: fs' => bind (pitch_frame f) (fun _ => frames fs')
  end.

(** The translation flags and the keys that drive them, as [onKeyDown]
    has them. *)
Inductive TranslationFlag : Type :=
| TranslateForward
| TranslateBackward
| TranslateLeft
| TranslateRight.

Definition flag (f : TranslationFlag) (k : t) : bool :=
  match f with
  | TranslateForward => translateForward k
  | TranslateBackward => translateBackward k
  | TranslateLeft => translateLeft k
  | TranslateRight => translateRight k
  end.

Definition translation_key (code : Z) : option TranslationFlag :=
  match code with
  | 87 | 38 => Some TranslateForward
  | 83 | 40 => Some TranslateBackward
  | 65 => Some TranslateLeft
  | 68 => Some TranslateRight
  | _ => None
  end%Z.

(** Key events in the order of their delivery, and the keys that are down
    after them. *)
Inductive Key : Type :=
| Down (code : Z)
| Up (code : Z).

Definition deliver (e : Key) (k : t) : t :=
  match e with
  | Down code => onKeyDown (mkKeyEvent code) k
  | Up code => onKeyUp (mkKeyEvent code) k
  end.

Definition deliver_all (es : list Key) (k : t) : t :=
  fold_left (fun k e => deliver e k) es k.

Definition held_after (held : list Z) (e : Key) : list Z :=
  match e with
  | Down code => code :: held
  | Up code => List.filter (fun c => negb (c =? code)%Z) held
  end.

Definition held (es : list Key) : list Z :=
  fold_left held_after es [].

(** [s'] is [s] but for the position of the object behind [this.camera],
    which was [c]. *)
Definition repositioned (s : state) (c : Object3D) (s' : state) : Prop :=
  s' = s \/ exists p, s' = with_camera (set_position p c) s.

(** The escape key, whose events toggle [freeze]. *)
Definition esc : KeyEvent := mkKeyEvent 27.

(** ** The event loop

    The browser delivers key events to the two handlers
    ([addEventListener] with [bind(this, ...)]), [animate] calls [render]
    once per frame, and the loader calls back once the model is there. *)

Inductive Input : Type :=
| KeyDown (event : KeyEvent)
| KeyUp (event : KeyEvent)
| Frame (delta : Q)
| Loaded (object : Object3D).

(** A computation on the globals, run next to a controller. *)
Definition on_window {A : Type} (m : M window.t A) : M state A :=
  fun s => match m (win s) with
           | Ok (a, w) => Ok (a, mkState (this s) w)
           | Throw e => Throw e
           end.

Definition dispatch `{Renderer} (i : Input) : M state unit :=
  match i with
  | KeyDown event => assign (onKeyDown event)
  | KeyUp event => assign (onKeyUp event)
  | Frame delta => main.render delta
  | Loaded object => on_window (main.onLoad object)
  end.

Fixpoint run `{Renderer} (inputs : list Input) : M state unit :=
  match inputs with
  | [] => ret tt
  | i :: inputs' => bind (dispatch i) (fun _ => run inputs')
  end.

(** The key codes that have a case in the handlers. *)
Definition recognised (code : Z) : bool :=
  existsb (Z.eqb code) [87; 65; 83; 68; 38; 40; 37; 81; 39; 69; 27]%Z.

(** One of the four translation flags is set. *)
Definition translating (k : t) : bool :=
  translateForward k || translateBackward k || translateLeft k || translateRight k.

(** The global [scene] is assigned. *)
Definition scene_bound (s : state) : bool :=
  match window.scene (win s) with
  | Some _ => true
  | None => false
  end.

(** What a frame needs in order to return: the object behind [this.camera],
    and the global [scene] when a translation flag is set. *)
Definition frame_ready (s : state) : bool :=
  allocated s (camera (this s)) && (negb (translating (this s)) || scene_bound s).

(** Equality of vectors, component by component, as rationals. *)
Definition veq (v w : Vector3) : Prop :=
  x v == x w /\ y v == y w /\ z v == z w.

(** No ray meets anything: a world without geometry. *)
Definition no_geometry `{Renderer} : Prop :=
  forall (r : Ray) (o : Object3D), raycast r o = [].

(** The globals and [this.camera] are bound and every child of the scene
    denotes an object: what the event loop keeps. *)
Definition sound (s : state) : bool :=
  initialised s && children_allocated s.

(** The object after a move that meets nothing, when the flag of the move is
    set. *)
Definition moved_by (b : bool) (m : Move) (u : Q) (c : Object3D) : Object3D :=
  if b then translateOnAxis (local_axis m) (signed m u) c else c.

(** ** KeyControls.js, the earlier revision

    The revision without collision probes.  It shares the fields of the later
    one, except that it calls [camera] [object] and has no [collisionMargin];
    its handlers also write [panLeft] and [panRight], which its constructor
    does not set. *)

Module Earlier.

Record t : Type := mk {
  base : KeyControls.t;
  panLeft : option bool;
  panRight : option bool
}.

(** An assignment to one of the shared fields. *)
Definition shared (f : KeyControls.t -> KeyControls.t) (k : t) : t :=
  mk (f (base k)) (panLeft k) (panRight k).

Definition set_pitchUp (v : bool) (k : KeyControls.t) : KeyControls.t :=
  set_pitch v (pitchDown k) k.

Definition set_pitchDown (v : bool) (k : KeyControls.t) : KeyControls.t :=
  set_pitch (pitchUp k) v k.

Definition set_panLeft (v : option bool) (k : t) : t :=
  mk (base k) v (panRight k).

Definition set_panRight (v : option bool) (k : t) : t :=
  mk (base k) (panLeft k) v.

(** [new THREE.KeyControls(object)] *)
Definition new (object : ref) : t :=
  mk (KeyControls.new object) None None.

Definition onKeyDown (event : KeyEvent) (this : t) : t :=
  match keyCode event with
  | 87 (* W *) => shared (set_translateForward true) this
  | 65 (* A *) => shared (set_translateLeft true) this
  | 83 (* S *) => shared (set_translateBackward true) this
  | 68 (* D *) => shared (set_translateRight true) this
  | 38 (* up *) => shared (set_pitchUp true) this
  | 40 (* down *) => shared (set_pitchDown true) this
  | 37 (* left *) => shared (set_yawLeft true) this
  | 81 (* Q *) => set_panLeft (Some true) this
  | 39 (* right *) => shared (set_yawRight true) this
  | 69 (* E *) => set_panRight (Some true) this
  | 27 (* esc *) => shared (fun k => set_freeze (js_not (freeze k)) k) this
  | _ => this
  end%Z.

Definition onKeyUp (event : KeyEvent) (this : t) : t :=
  match keyCode event with
  | 87 (* W *) => shared (set_translateForward false) this
  | 65 (* A *) => shared (set_translateLeft false) this
  | 83 (* S *) => shared (set_translateBackward false) this
  | 68 (* D *) => shared (set_translateRight false) this
  | 38 (* up *) => shared (set_pitchUp false) this
  | 40 (* down *) => shared (set_pitchDown false) this
  | 37 (* left *) => shared (set_yawLeft false) this
  | 81 (* Q *) => set_panLeft (Some false) this
  | 39 (* right *) => shared (set_yawRight false) this
  | 69 (* E *) => set_panRight (Some false) this
  | 27 (* esc *) => shared (fun k => set_freeze (js_not (freeze k)) k) this
  | _ => this
  end%Z.

Record state : Type := mkState { this : t; win : window.t }.

Section Methods.

Context `{Renderer}.

Local Open Scope js_scope.

Definition get_this : M state t :=
  fun s => Ok (this s, s).

Definition assign (f : KeyControls.t -> KeyControls.t) : M state unit :=
  modify (fun s => mkState (shared f (this s)) (win s)).

Definition deref (r : ref) : M state Object3D :=
  s <- get ;; defined (window.store (win s) !! r).

Definition call (r : ref) (f : Object3D -> Object3D) : M state unit :=
  o <- deref r ;;
  modify (fun s => mkState (this s)
                     (window.set_store (<[r := f o]> (window.store (win s))) (win s))).

Definition update (timeDelta : Q) : M state unit :=
  this <- get_this ;;
  let translationSpeed := timeDelta * movementSpeed (base this) in
  (this <- get_this ;;
   when (translateForward (base this))
        (call (camera (base this)) (translateZ (- translationSpeed)))) ;;;
  (this <- get_this ;;
   when (translateBackward (base this))
        (call (camera (base this)) (translateZ translationSpeed))) ;;;
  (this <- get_this ;;
   when (translateLeft (base this))
        (call (camera (base this)) (translateX (- translationSpeed)))) ;;;
  (this <- get_this ;;
   when (translateRight (base this))
        (call (camera (base this)) (translateX translationSpeed))) ;;;
  this <- get_this ;;
  let actualLookSpeed := lookSpeed (base this) in
  (this <- get_this ;;
   when (yawLeft (base this))
        (assign (set_theta (theta (base this) - actualLookSpeed)))) ;;;
  (this <- get_this ;;
   when (yawRight (base this))
        (assign (set_theta (theta (base this) + actualLookSpeed)))) ;;;
  (this <- get_this ;;
   when (lookVertical (base this))
        (let invertfactor := if invertVertical (base this) then 1 else -1 in
         (this <- get_this ;;
          when (pitchUp (base this))
               (assign (set_lat (lat (base this) + invertfactor * (1 # 2))))) ;;;
         (this <- get_this ;;
          when (pitchDown (base this))
               (assign (set_lat (lat (base this) - invertfactor * (1 # 2))))))) ;;;
  (this <- get_this ;;
   assign (set_lat (Math_max (-89) (Math_min 89 (lat (base this)))))) ;;;
  (this <- get_this ;;
   assign (set_phi (degToRad (90 - lat (base this))))) ;;;
  this <- get_this ;;
  object <- deref (camera (base this)) ;;
  let position := position object in
  let distanceAhead := 100 in
  assign (set_target
            (mkVector3
               (x position + distanceAhead * Math_sin (phi (base this)) * Math_cos (theta (base this)))
               (y position + distanceAhead * Math_cos (phi (base this)))
               (z position + distanceAhead * Math_sin (phi (base this)) * Math_sin (theta (base this))))) ;;;
  this <- get_this ;;
  call (camera (base this)) (lookAt (target (base this))).

(** The second half of [update], from [var actualLookSpeed] on: the code
    that the later revision moves to [rotateView]. *)
Definition update_rotation : M state unit :=
  this <- get_this ;;
  let actualLookSpeed := lookSpeed (base this) in
  (this <- get_this ;;
   when (yawLeft (base this))
        (assign (set_theta (theta (base this) - actualLookSpeed)))) ;;;
  (this <- get_this ;;
   when (yawRight (base this))
        (assign (set_theta (theta (base this) + actualLookSpeed)))) ;;;
  (this <- get_this ;;
   when (lookVertical (base this))
        (let invertfactor := if invertVertical (base this) then 1 else -1 in
         (this <- get_this ;;
          when (pitchUp (base this))
               (assign (set_lat (lat (base this) + invertfactor * (1 # 2))))) ;;;
         (this <- get_this ;;
          when (pitchDown (base this))
               (assign (set_lat (lat (base this) - invertfactor * (1 # 2))))))) ;;;
  (this <- get_this ;;
   assign (set_lat (Math_max (-89) (Math_min 89 (lat (base this)))))) ;;;
  (this <- get_this ;;
   assign (set_phi (degToRad (90 - lat (base this))))) ;;;
  this <- get_this ;;
  object <- deref (camera (base this)) ;;
  let position := position object in
  let distanceAhead := 100 in
  assign (set_target
            (mkVector3
               (x position + distanceAhead * Math_sin (phi (base this)) * Math_cos (theta (base this)))
               (y position + distanceAhead * Math_cos (phi (base this)))
               (z position + distanceAhead * Math_sin (phi (base this)) * Math_sin (theta (base this))))) ;;;
  this <- get_this ;;
  call (camera (base this)) (lookAt (target (base this))).

End Methods.

(** The state of the earlier revision that has the shared fields of [s]. *)
Definition of_later (pl pr : option bool) (s : KeyControls.state) : state :=
  mkState (mk (KeyControls.this s) pl pr) (KeyControls.win s).

(** The key codes whose cases differ between the two revisions. *)
Definition remapped (code : Z) : bool :=
  existsb (Z.eqb code) [38; 40; 81; 69]%Z.

End Earlier.

(** The object after the four unprobed translations of the earlier revision,
    for the flags of [k] and a distance [u]. *)
Definition translated (k : t) (u : Q) (c : Object3D) : Object3D :=
  let c1 := if translateForward k then translateZ (- u) c else c in
  let c2 := if translateBackward k then translateZ u c1 else c1 in
  let c3 := if translateLeft k then translateX (- u) c2 else c2 in
  if translateRight k then translateX u c3 else c3.

(** * Properties *)

Ltac run :=
  cbv beta iota delta
      [bind get get_this defined ret throw when assign modify put deref].

Ltac fields :=
  cbn [this win camera target movementSpeed lookSpeed lookVertical invertVertical
       verticalMin verticalMax lat lon phi theta translateForward translateBackward
       translateLeft translateRight yawRight yawLeft pitchUp pitchDown collisionMargin
       freeze set_target set_lat set_phi set_theta set_pitch released
       set_translateForward set_translateBackward set_translateLeft
       set_translateRight set_yawLeft set_yawRight set_freeze
       window.store window.scene window.camera window.set_store].

(** ** The key handlers *)

Lemma onKeyDown_freeze (e : KeyEvent) (k : t) :
  freeze (onKeyDown e k) = if (keyCode e =? 27)%Z then js_not (freeze k) else freeze k.
Proof.
  unfold onKeyDown.
  destruct (keyCode e) as [|p|p]; try reflexivity.
  repeat (destruct p as [p|p|]; try reflexivity).
Qed.

Lemma onKeyUp_freeze (e : KeyEvent) (k : t) :
  freeze (onKeyUp e k) = if (keyCode e =? 27)%Z then js_not (freeze k) else freeze k.
Proof.
  unfold onKeyUp.
  destruct (keyCode e) as [|p|p]; try reflexivity.
  repeat (destruct p as [p|p|]; try reflexivity).
Qed.

(** C5, as the code has it: the flag is negated by the key-down event and by
    the key-up event of key code 27 and by the events of no other key; one
    press and release negates it twice, which leaves its truth value, and so
    do the key-down events of two presses. *)
Theorem freeze_toggled_on_both_edges (e : KeyEvent) (k : t) :
  freeze (onKeyDown e k) = (if (keyCode e =? 27)%Z then js_not (freeze k) else freeze k) /\
  freeze (onKeyUp e k) = (if (keyCode e =? 27)%Z then js_not (freeze k) else freeze k) /\
  freeze (onKeyUp esc (onKeyDown esc k)) = Some (ToBoolean (freeze k)) /\
  freeze (onKeyDown esc (onKeyDown esc k)) = Some (ToBoolean (freeze k)).
Proof.
  split; [apply onKeyDown_freeze|]. split; [apply onKeyUp_freeze|].
  split; cbn; unfold js_not; cbn; rewrite negb_involutive; reflexivity.
Qed.

(** C5 as it is worded fails: the key-up event of key code 27 changes
    the flag, and a press and release does not leave it toggled. *)
Lemma freeze_not_only_on_key_down :
  let k := set_freeze (Some false) (new 0%nat) in
  freeze (onKeyUp esc k) <> freeze k /\
  freeze (onKeyUp esc (onKeyDown esc k)) = freeze k.
Proof.
  split; [discriminate | reflexivity].
Qed.

Lemma translation_key_cases (code : Z) (f : TranslationFlag) :
  translation_key code = Some f ->
  (code = 87 \/ code = 38 \/ code = 83 \/ code = 40 \/ code = 65 \/ code = 68)%Z.
Proof.
  unfold translation_key.
  destruct code as [|p|p]; try discriminate.
  repeat (destruct p as [p|p|]; try discriminate); intros _; tauto.
Qed.

Lemma onKeyDown_sets (code : Z) (f : TranslationFlag) (k : t) :
  translation_key code = Some f ->
  flag f (onKeyDown (mkKeyEvent code) k) = true.
Proof.
  intros Hf. pose proof (translation_key_cases _ _ Hf) as Hc.
  destruct Hc as [-> | [-> | [-> | [-> | [-> | ->]]]]];
    cbn in Hf; injection Hf as <-; reflexivity.
Qed.

Lemma onKeyUp_clears (code : Z) (f : TranslationFlag) (k : t) :
  translation_key code = Some f ->
  flag f (onKeyUp (mkKeyEvent code) k) = false.
Proof.
  intros Hf. pose proof (translation_key_cases _ _ Hf) as Hc.
  destruct Hc as [-> | [-> | [-> | [-> | [-> | ->]]]]];
    cbn in Hf; injection Hf as <-; reflexivity.
Qed.

Lemma deliver_all_snoc (es : list Key) (e : Key) (k : t) :
  deliver_all (es ++ [e]) k = deliver e (deliver_all es k).
Proof.
  unfold deliver_all. rewrite fold_left_app. reflexivity.
Qed.

(** C7: after the key-up event of a key that drives a translation flag the
    flag is false, whatever events came before and whichever keys are still
    down. *)
Theorem key_up_clears_translation_flag
        (es : list Key) (code : Z) (f : TranslationFlag) (k : t) :
  translation_key code = Some f ->
  flag f (deliver_all (es ++ [Up code]) k) = false.
Proof.
  intros Hf. rewrite deliver_all_snoc. cbn [deliver].
  apply onKeyUp_clears. exact Hf.
Qed.

(** W is released while the up arrow, which drives the same flag, is still
    down. *)
Lemma key_up_clears_translation_flag_witness :
  translation_key 87 = Some TranslateForward /\
  translation_key 38 = Some TranslateForward /\
  In 38%Z (held ([Down 87; Down 38] ++ [Up 87])) /\
  flag TranslateForward (deliver_all ([Down 87; Down 38] ++ [Up 87]) (new 0%nat)) = false.
Proof.
  split; [reflexivity|]. split; [reflexivity|]. split; [cbn; tauto|].
  apply (key_up_clears_translation_flag [Down 87; Down 38] 87 TranslateForward (new 0%nat)).
  reflexivity.
Defined.

(** ** Running the methods *)

Section Methods.

Context {R : Renderer}.

Lemma getCollideableObjects_run (s : state) (sc : Scene) :
  window.scene (win s) = Some sc ->
  getCollideableObjects s =
  Ok (List.filter
        (fun child =>
           match window.store (win s) !! child with
           | Some o => instanceof o Ctor.Mesh || instanceof o Ctor.Object3D
           | None => false
           end) (scene_children sc), s).
Proof.
  intros Hs. unfold getCollideableObjects. run. rewrite Hs. reflexivity.
Qed.

Lemma update_run (s : state) (r : ref) (f : Object3D -> Object3D) (o : Object3D) :
  window.store (win s) !! r = Some o ->
  update r f s =
  Ok (tt, mkState (this s)
                  (window.set_store (<[r := f o]> (window.store (win s))) (win s))).
Proof.
  intros Hr. unfold update. run. rewrite Hr. reflexivity.
Qed.

Lemma binds_placed (s : state) (g c : Object3D) (sc : Scene) :
  binds s g c sc -> placed s c sc.
Proof.
  intros [_ H]. exact H.
Qed.

Lemma attempt_run (m : Move) (units : Q) (s : state) (c : Object3D) (rs : list ref) :
  window.store (win s) !! camera (this s) = Some c ->
  getCollideableObjects s = Ok (rs, s) ->
  attempt m units s =
  Ok (tt, if (length (intersectObjects (probe m units s c) (objects s rs) true) <? 1)%nat
          then with_camera (translateOnAxis (local_axis m) (signed m units) c) s
          else s).
Proof.
  intros Ht Hrs.
  destruct m; unfold attempt, translateViewZ, translateViewX; run;
    rewrite Ht; run; rewrite Hrs; run; rewrite Ht; run;
    unfold probe, objects, probe_direction, translateViewZ_direction,
           translateViewX_direction, clone, local_axis, signed, translateZ,
           translateX, with_camera;
    match goal with |- context [(?n <? 1)%nat] => destruct (n <? 1)%nat end;
    try reflexivity; erewrite update_run by eassumption; reflexivity.
Qed.

Lemma placed_collidables (s : state) (c : Object3D) (sc : Scene) :
  placed s c sc -> exists rs, getCollideableObjects s = Ok (rs, s).
Proof.
  intros [Hs _]. eexists. apply getCollideableObjects_run. exact Hs.
Qed.

Lemma rotateView_run (timeDelta : Q) (s : state) (cam : Object3D) :
  window.store (win s) !! camera (this s) = Some cam ->
  rotateView timeDelta s = Ok (tt, rotated s cam).
Proof.
  destruct s as [k w].
  destruct k as [cr tg ms ls lv iv vmin vmax la lo ph th tf tb tl tr yr yl pu pd cm fz].
  fields. intros Hcam.
  unfold rotateView, rotated, turned, yawed, pitched, clamped, with_camera, update.
  run. fields.
  destruct yl, yr, lv, pu, pd; fields; run; fields;
    repeat (rewrite Hcam; run; fields); reflexivity.
Qed.

Lemma rotateView_throws (timeDelta : Q) (s : state) :
  window.store (win s) !! camera (this s) = None ->
  rotateView timeDelta s = Throw TypeError.
Proof.
  destruct s as [k w].
  destruct k as [cr tg ms ls lv iv vmin vmax la lo ph th tf tb tl tr yr yl pu pd cm fz].
  fields. intros Hcam.
  unfold rotateView. run. fields.
  destruct yl, yr, lv, pu, pd; fields; run; fields; rewrite Hcam; reflexivity.
Qed.

(** *** The store *)

Lemma with_camera_lookup (o : Object3D) (s : state) :
  window.store (win (with_camera o s)) !! camera (this (with_camera o s)) = Some o.
Proof.
  unfold with_camera. fields. apply lookup_insert_eq.
Qed.

Lemma binds_with_camera (s : state) (g c o : Object3D) (sc : Scene) :
  binds s g c sc -> exists g', binds (with_camera o s) g' o sc.
Proof.
  intros [[r [Hc Hg]] [Hs Ht]].
  destruct (decide (camera (this s) = r)) as [E | E].
  - exists o. split; [exists r; split; [exact Hc|]|split; [exact Hs|]].
    + unfold with_camera. fields. rewrite E. apply lookup_insert_eq.
    + apply with_camera_lookup.
  - exists g. split; [exists r; split; [exact Hc|]|split; [exact Hs|]].
    + unfold with_camera. fields. rewrite lookup_insert_ne by exact E. exact Hg.
    + apply with_camera_lookup.
Qed.

Lemma with_camera_twice (o o' : Object3D) (s : state) :
  with_camera o' (with_camera o s) = with_camera o' s.
Proof.
  unfold with_camera. fields. unfold window.set_store. fields.
  rewrite insert_insert_eq. reflexivity.
Qed.

Lemma set_position_twice (p p' : Vector3) (o : Object3D) :
  set_position p' (set_position p o) = set_position p' o.
Proof. reflexivity. Qed.

Lemma repositioned_refl (s : state) (c : Object3D) : repositioned s c s.
Proof. left. reflexivity. Qed.

Lemma repositioned_this (s s' : state) (c : Object3D) :
  repositioned s c s' -> this s' = this s.
Proof.
  intros [-> | [p ->]]; reflexivity.
Qed.

Lemma repositioned_binds (s s' : state) (g c : Object3D) (sc : Scene) :
  binds s g c sc -> repositioned s c s' ->
  exists g' c', binds s' g' c' sc /\ (c' = c \/ exists p, c' = set_position p c).
Proof.
  intros Hb [-> | [p ->]].
  - exists g, c. split; [exact Hb | left; reflexivity].
  - destruct (binds_with_camera s g c (set_position p c) sc Hb) as [g' Hb'].
    exists g', (set_position p c). split; [exact Hb' | right; exists p; reflexivity].
Qed.

Lemma repositioned_step (s s' s'' : state) (c c' : Object3D) :
  repositioned s c s' ->
  (c' = c \/ exists p, c' = set_position p c) ->
  repositioned s' c' s'' ->
  repositioned s c s''.
Proof.
  intros H1 Hc H2.
  destruct H2 as [-> | [p2 ->]]; [exact H1|].
  right. exists p2.
  assert (set_position p2 c' = set_position p2 c) as ->
      by (destruct Hc as [-> | [p ->]]; reflexivity).
  destruct H1 as [-> | [p1 ->]]; [reflexivity | apply with_camera_twice].
Qed.

Lemma placed_with_camera (s : state) (c o : Object3D) (sc : Scene) :
  placed s c sc -> placed (with_camera o s) o sc.
Proof.
  intros [Hs _]. split; [exact Hs | apply with_camera_lookup].
Qed.

Lemma repositioned_placed (s s' : state) (c : Object3D) (sc : Scene) :
  placed s c sc -> repositioned s c s' ->
  exists c', placed s' c' sc /\ (c' = c \/ exists p, c' = set_position p c).
Proof.
  intros Hp [-> | [p ->]].
  - exists c. split; [exact Hp | left; reflexivity].
  - exists (set_position p c).
    split; [exact (placed_with_camera s c _ sc Hp) | right; exists p; reflexivity].
Qed.

Lemma attempt_repositioned (m : Move) (units : Q) (s : state) (c : Object3D) (sc : Scene) :
  placed s c sc ->
  exists s', attempt m units s = Ok (tt, s') /\ repositioned s c s'.
Proof.
  intros Hp. destruct (placed_collidables s c sc Hp) as [rs Hrs].
  rewrite (attempt_run m units s c rs (proj2 Hp) Hrs).
  match goal with |- context [(?n <? 1)%nat] => destruct (n <? 1)%nat end.
  - eexists. split; [reflexivity|]. right. eexists. reflexivity.
  - eexists. split; [reflexivity|]. left. reflexivity.
Qed.

End Methods.

(** ** Translation and its probe *)

Section Translation.

Context {R : Renderer}.

Lemma instanceof_Object3D (o : Object3D) :
  instanceof o Ctor.Mesh || instanceof o Ctor.Object3D = true.
Proof.
  unfold instanceof. destruct (constructor o); reflexivity.
Qed.

Lemma Mesh_is_Object3D (o : Object3D) :
  instanceof o Ctor.Mesh = true -> instanceof o Ctor.Object3D = true.
Proof.
  unfold instanceof. destruct (constructor o); intros E; try discriminate E; reflexivity.
Qed.

Lemma filter_allocated (s : state) (rs : list ref) :
  forallb (allocated s) rs = true ->
  List.filter
    (fun child =>
       match window.store (win s) !! child with
       | Some o => instanceof o Ctor.Mesh || instanceof o Ctor.Object3D
       | None => false
       end) rs = rs.
Proof.
  induction rs as [|r rs IH]; intros Ha; [reflexivity|].
  cbn [forallb] in Ha. apply andb_prop in Ha. destruct Ha as [Hr Hrs].
  cbn [List.filter]. unfold allocated in Hr.
  destruct (window.store (win s) !! r) as [o|]; [|discriminate Hr].
  rewrite instanceof_Object3D. rewrite (IH Hrs). reflexivity.
Qed.

Lemma filter_none {A : Type} (f : A -> bool) (l : list A) :
  (forall a, In a l -> f a = false) -> List.filter f l = [].
Proof.
  induction l as [|a l IH]; intros Hf; [reflexivity|].
  cbn [List.filter]. rewrite (Hf a (or_introl eq_refl)).
  apply IH. intros b Hb. apply Hf. right. exact Hb.
Qed.

Lemma filter_some {A : Type} (f : A -> bool) (l : list A) (a : A) :
  In a l -> f a = true -> (length (List.filter f l) <? 1)%nat = false.
Proof.
  intros Hin Hf.
  assert (Hin' : In a (List.filter f l)) by (apply filter_In; split; assumption).
  destruct (List.filter f l); [destruct Hin' | reflexivity].
Qed.

Lemma reach_far (o d : Vector3) (reach : Q) :
  far (new_Raycaster o d 0 reach) = if Qeq_bool reach 0 then None else Some reach.
Proof. reflexivity. Qed.

Lemma reach_nonzero (reach : Q) : ~ reach == 0 -> Qeq_bool reach 0 = false.
Proof.
  intros Hn. destruct (Qeq_bool reach 0) eqn:E; [|reflexivity].
  apply Qeq_bool_iff in E. contradiction.
Qed.


Lemma filter_agree {A : Type} (f g : A -> bool) (l : list A) :
  (forall a, f a = g a) -> List.filter f l = List.filter g l.
Proof.
  intros E. induction l as [|a l IH]; [reflexivity|].
  cbn [List.filter]. rewrite E, IH. reflexivity.
Qed.

(** The intersections of a probe are the points at which its ray meets the
    objects between 0 and its reach, or from 0 on when the reach is 0. *)
Lemma intersections_within (o d : Vector3) (reach : Q) (os : list Object3D) :
  intersectObjects (new_Raycaster o d 0 reach) os true =
  if Qeq_bool reach 0
  then List.filter (Qle_bool 0) (rayHits (mkRay o d) os true)
  else within reach (rayHits (mkRay o d) os true).
Proof.
  unfold intersectObjects, within, inRange.
  rewrite reach_far. cbn [ray near new_Raycaster].
  destruct (Qeq_bool reach 0).
  - apply filter_agree. intros a. apply andb_true_r.
  - reflexivity.
Qed.







(** C9: when every element of [scene.children] denotes an object the filter
    keeps all of them, a Mesh being an Object3D; every probe is cast
    against all the children of the scene and, with the flag [true], against
    what is below them. *)
Theorem collidable_filter_is_vacuous
        (s : state) (c : Object3D) (sc : Scene) :
  window.scene (win s) = Some sc ->
  window.store (win s) !! camera (this s) = Some c ->
  children_allocated s = true ->
  getCollideableObjects s = Ok (scene_children sc, s) /\
  (forall o, instanceof o Ctor.Mesh = true -> instanceof o Ctor.Object3D = true) /\
  (forall o, instanceof o Ctor.Mesh || instanceof o Ctor.Object3D = true) /\
  (forall m units,
      attempt m units s =
      Ok (tt, if (length (List.filter
                            (inRange (probe m units s c))
                            (rayHits (ray (probe m units s c))
                                     (objects s (scene_children sc)) true)) <? 1)%nat
              then with_camera (translateOnAxis (local_axis m) (signed m units) c) s
              else s)) /\
  (forall r os,
      rayHits r os true =
      if degenerate r then [] else flat_map (raycast r) (flat_map descendants os)).
Proof.
  intros Hs Ht Ha.
  assert (Hrs : getCollideableObjects s = Ok (scene_children sc, s)).
  { rewrite (getCollideableObjects_run s sc Hs).
    unfold children_allocated in Ha. rewrite Hs in Ha.
    rewrite (filter_allocated s _ Ha). reflexivity. }
  split; [exact Hrs|]. split; [exact Mesh_is_Object3D|].
  split; [exact instanceof_Object3D|]. split; [|reflexivity].
  intros m units. apply (attempt_run m units s c _ Ht Hrs).
Qed.

End Translation.

(** ** Frames *)

Section Frames.

Context {R : Renderer}.

Lemma when_attempt (b : bool) (m : Move) (units : Q) (s : state) (c : Object3D)
      (sc : Scene) :
  placed s c sc ->
  exists s', when b (attempt m units) s = Ok (tt, s') /\ repositioned s c s'.
Proof.
  intros Hp. destruct b; cbn [when].
  - apply (attempt_repositioned m units s c sc Hp).
  - exists s. split; [reflexivity | apply repositioned_refl].
Qed.

Lemma translateView_unfold (timeDelta : Q) (s : state) :
  translateView timeDelta s =
  bind (when (translateForward (this s))
             (attempt Forward (timeDelta * movementSpeed (this s))))
       (fun _ =>
          bind (bind get_this
                     (fun k => when (translateBackward k)
                                    (attempt Backward (timeDelta * movementSpeed (this s)))))
               (fun _ =>
                  bind (bind get_this
                             (fun k => when (translateLeft k)
                                            (attempt Left (timeDelta * movementSpeed (this s)))))
                       (fun _ =>
                          bind get_this
                               (fun k => when (translateRight k)
                                              (attempt Right (timeDelta * movementSpeed (this s)))))))
       s.
Proof. reflexivity. Qed.

Lemma translateView_repositioned (timeDelta : Q) (s : state) (c : Object3D) (sc : Scene) :
  placed s c sc ->
  exists s', translateView timeDelta s = Ok (tt, s') /\ repositioned s c s'.
Proof.
  intros Hb. rewrite translateView_unfold.
  set (u := timeDelta * movementSpeed (this s)).
  destruct (when_attempt (translateForward (this s)) Forward u s c sc Hb)
    as [s1 [E1 P1]].
  destruct (repositioned_placed s s1 c sc Hb P1) as [c1 [Hb1 Hc1]].
  destruct (when_attempt (translateBackward (this s1)) Backward u s1 c1 sc Hb1)
    as [s2 [E2 P2]].
  pose proof (repositioned_step s s1 s2 c c1 P1 Hc1 P2) as P12.
  destruct (repositioned_placed s s2 c sc Hb P12) as [c2 [Hb2 Hc2]].
  destruct (when_attempt (translateLeft (this s2)) Left u s2 c2 sc Hb2)
    as [s3 [E3 P3]].
  pose proof (repositioned_step s s2 s3 c c2 P12 Hc2 P3) as P13.
  destruct (repositioned_placed s s3 c sc Hb P13) as [c3 [Hb3 Hc3]].
  destruct (when_attempt (translateRight (this s3)) Right u s3 c3 sc Hb3)
    as [s4 [E4 P4]].
  pose proof (repositioned_step s s3 s4 c c3 P13 Hc3 P4) as P14.
  exists s4. split; [|exact P14].
  unfold bind at 1. rewrite E1.
  unfold bind at 1. unfold bind at 1. unfold get_this at 1. rewrite E2.
  unfold bind at 1. unfold bind at 1. unfold get_this at 1. rewrite E3.
  unfold bind at 1. unfold get_this at 1. exact E4.
Qed.

Lemma idle_flags (k : t) :
  idle k = true ->
  translateForward k = false /\ translateBackward k = false /\
  translateLeft k = false /\ translateRight k = false /\
  yawRight k = false /\ yawLeft k = false /\ pitchUp k = false /\ pitchDown k = false.
Proof.
  unfold idle.
  destruct (translateForward k), (translateBackward k), (translateLeft k),
    (translateRight k), (yawRight k), (yawLeft k), (pitchUp k), (pitchDown k);
    intros E; try discriminate E; repeat split.
Qed.

Lemma translateView_idle (timeDelta : Q) (s : state) :
  translateForward (this s) = false -> translateBackward (this s) = false ->
  translateLeft (this s) = false -> translateRight (this s) = false ->
  translateView timeDelta s = Ok (tt, s).
Proof.
  intros H1 H2 H3 H4. rewrite translateView_unfold.
  unfold bind, get_this. rewrite H1. cbn [when ret].
  rewrite H2. cbn [when ret]. rewrite H3. cbn [when ret]. rewrite H4. reflexivity.
Qed.

Lemma updateView_run (timeDelta : Q) (s : state) (g c : Object3D) (sc : Scene) :
  binds s g c sc ->
  exists s1 g1 c1,
    translateView timeDelta s = Ok (tt, s1) /\
    repositioned s c s1 /\
    binds s1 g1 c1 sc /\
    (c1 = c \/ exists p, c1 = set_position p c) /\
    updateView timeDelta s = Ok (tt, rotated s1 c1).
Proof.
  intros Hb.
  destruct (translateView_repositioned timeDelta s c sc (binds_placed s g c sc Hb))
    as [s1 [E1 P1]].
  destruct (repositioned_binds s s1 g c sc Hb P1) as [g1 [c1 [Hb1 Hc1]]].
  exists s1, g1, c1. repeat (split; [assumption|]).
  unfold updateView, bind. rewrite E1.
  apply rotateView_run. destruct Hb1 as [_ [_ Ht]]. exact Ht.
Qed.

Lemma updateView_placed (timeDelta : Q) (s : state) (c : Object3D) (sc : Scene) :
  placed s c sc ->
  exists s1 c1,
    translateView timeDelta s = Ok (tt, s1) /\
    placed s1 c1 sc /\
    updateView timeDelta s = Ok (tt, rotated s1 c1).
Proof.
  intros Hp.
  destruct (translateView_repositioned timeDelta s c sc Hp) as [s1 [E1 P1]].
  destruct (repositioned_placed s s1 c sc Hp P1) as [c1 [Hp1 _]].
  exists s1, c1. split; [exact E1|]. split; [exact Hp1|].
  unfold updateView, bind. rewrite E1.
  apply rotateView_run. exact (proj2 Hp1).
Qed.

Lemma binds_rotated (s : state) (g c : Object3D) (sc : Scene) :
  binds s g c sc -> exists g', binds (rotated s c) g' (lookAt (target (turned (this s) (position c))) c) sc.
Proof.
  intros Hb. unfold rotated.
  apply (binds_with_camera (mkState (turned (this s) (position c)) (win s)) g c).
  destruct Hb as [Hg [Hs Ht]]. split; [exact Hg|]. split; [exact Hs|]. exact Ht.
Qed.

(** *** The clamp *)

Lemma clamped_range (l : Q) : -89 <= clamped l /\ clamped l <= 89.
Proof.
  unfold clamped, Math_max, Math_min. split.
  - apply Q.le_max_l.
  - apply Q.max_lub; [discriminate | apply Q.le_min_l].
Qed.

Lemma clamped_idem (l : Q) : clamped (clamped l) = clamped l.
Proof.
  unfold clamped, Math_max, Math_min, Qmax, Qmin, GenericMinMax.gmax, GenericMinMax.gmin.
  destruct (89 ?= l) eqn:E1.
  - reflexivity.
  - reflexivity.
  - destruct (-89 ?= l) eqn:E2.
    + reflexivity.
    + rewrite E1. rewrite E2. reflexivity.
    + reflexivity.
Qed.

Lemma degToRad_bounds (l : Q) :
  -89 <= l -> l <= 89 ->
  degToRad 1 <= degToRad (90 - l) /\ degToRad (90 - l) <= degToRad 179 /\
  ~ degToRad (90 - l) == 0 /\ ~ degToRad (90 - l) == Math_PI.
Proof.
  intros H1 H2. unfold degToRad.
  assert (Hpi : Math_PI == 180 * (Math_PI / 180)) by (unfold Math_PI; reflexivity).
  assert (Hc : 0 < Math_PI / 180) by reflexivity.
  set (f := Math_PI / 180) in *. clearbody f.
  assert (A : 1 * f <= (90 - l) * f) by (apply Qmult_le_compat_r; lra).
  assert (B : (90 - l) * f <= 179 * f) by (apply Qmult_le_compat_r; lra).
  split; [exact A|]. split; [exact B|]. split; intro E; lra.
Qed.

(** The pitch invariant of a controller. *)
Lemma turned_pitch (k : t) (p : Vector3) :
  (-89 <= lat (turned k p) /\ lat (turned k p) <= 89) /\
  phi (turned k p) = degToRad (90 - lat (turned k p)) /\
  (degToRad 1 <= phi (turned k p) /\ phi (turned k p) <= degToRad 179) /\
  ~ phi (turned k p) == 0 /\ ~ phi (turned k p) == Math_PI.
Proof.
  unfold turned. fields.
  pose proof (clamped_range (pitched k)) as [H1 H2].
  pose proof (degToRad_bounds _ H1 H2) as [A [B [C D]]].
  repeat split; assumption.
Qed.

Lemma pitch_frame_run (f : bool * bool * Q) (s : state) (g c : Object3D) (sc : Scene) :
  binds s g c sc ->
  exists s1 g' c',
    pitch_frame f s = Ok (tt, rotated s1 c') /\ binds (rotated s1 c') g' (lookAt (target (turned (this s1) (position c'))) c') sc.
Proof.
  intros Hb. unfold pitch_frame, bind, assign, modify.
  set (s0 := mkState (set_pitch (fst (fst f)) (snd (fst f)) (this s)) (win s)).
  assert (Hb0 : binds s0 g c sc).
  { destruct Hb as [Hg [Hs Ht]]. split; [exact Hg|]. split; [exact Hs|].
    unfold s0. destruct (this s). exact Ht. }
  destruct (updateView_run (snd f) s0 g c sc Hb0) as [s1 [g1 [c1 [_ [_ [Hb1 [_ E]]]]]]].
  rewrite E. destruct (binds_rotated s1 g1 c1 sc Hb1) as [g' Hb'].
  exists s1, g', c1. split; [reflexivity | exact Hb'].
Qed.

Lemma frames_snoc (fs : list (bool * bool * Q)) (f : bool * bool * Q) (s : state)
      (g c : Object3D) (sc : Scene) :
  binds s g c sc ->
  exists s1 c1, frames (fs ++ [f]) s = Ok (tt, rotated s1 c1).
Proof.
  revert s g c. induction fs as [|f0 fs IH]; intros s g c Hb.
  - cbn [app frames]. destruct (pitch_frame_run f s g c sc Hb) as [s1 [g' [c' [E _]]]].
    exists s1, c'. unfold bind. rewrite E. reflexivity.
  - cbn [app frames]. destruct (pitch_frame_run f0 s g c sc Hb) as [s1 [g' [c' [E Hb']]]].
    destruct (IH _ _ _ Hb') as [s2 [c2 E2]].
    exists s2, c2. unfold bind at 1. rewrite E. exact E2.
Qed.

(** C3: after one or more invocations of [updateView], whatever the pitch
    flags held at each, [lat] is between -89 and 89, [phi] is
    [degToRad (90 - lat)], between [degToRad 1] and [degToRad 179], and is
    neither 0 nor [Math.PI]; and every invocation returns. *)
Theorem pitch_stays_clamped
        (fs : list (bool * bool * Q)) (f : bool * bool * Q) (s : state)
        (g c : Object3D) (sc : Scene) :
  binds s g c sc ->
  exists s',
    frames (fs ++ [f]) s = Ok (tt, s') /\
    (-89 <= lat (this s') /\ lat (this s') <= 89) /\
    phi (this s') = degToRad (90 - lat (this s')) /\
    (degToRad 1 <= phi (this s') /\ phi (this s') <= degToRad 179) /\
    ~ phi (this s') == 0 /\ ~ phi (this s') == Math_PI.
Proof.
  intros Hb. destruct (frames_snoc fs f s g c sc Hb) as [s1 [c1 E]].
  exists (rotated s1 c1). split; [exact E|].
  apply (turned_pitch (this s1) (position c1)).
Qed.

End Frames.

(** ** Rotation *)

Section Rotation.

Context {R : Renderer}.

Lemma updateView_inv (timeDelta : Q) (s0 s1 : state) :
  updateView timeDelta s0 = Ok (tt, s1) ->
  exists s c,
    translateView timeDelta s0 = Ok (tt, s) /\
    window.store (win s) !! camera (this s) = Some c /\
    s1 = rotated s c.
Proof.
  unfold updateView, bind.
  destruct (translateView timeDelta s0) as [[[] s]|e] eqn:E; [|discriminate].
  destruct (window.store (win s) !! camera (this s)) as [c|] eqn:L.
  - rewrite (rotateView_run timeDelta s c L). intros H. injection H as <-.
    exists s, c. repeat split. exact L.
  - rewrite (rotateView_throws timeDelta s L). discriminate.
Qed.

Lemma turned_fixed (k : t) (p : Vector3) :
  pitched k = lat k -> yawed k = theta k -> clamped (lat k) = lat k ->
  phi k = degToRad (90 - lat k) ->
  target k = look_target p (lat k) (theta k) ->
  turned k p = k.
Proof.
  intros H1 H2 H3 H4 H5. unfold turned. rewrite H1, H2, H3, <- H4, <- H5.
  destruct k. reflexivity.
Qed.

Lemma released_turned_fixed (k : t) (p : Vector3) :
  turned (released (turned k p)) p = released (turned k p).
Proof.
  apply turned_fixed.
  - destruct k as [cr tg ms ls lv iv vmin vmax la lo ph th tf tb tl tr yr yl pu pd cm fz].
    unfold pitched. fields. destruct lv; reflexivity.
  - destruct k. reflexivity.
  - destruct k. unfold turned. fields. apply clamped_idem.
  - destruct k. reflexivity.
  - destruct k. reflexivity.
Qed.

Lemma rotated_released_fixed (s : state) (c : Object3D) :
  rotated (mkState (released (this (rotated s c))) (win (rotated s c)))
          (lookAt (target (this (rotated s c))) c) =
  mkState (released (this (rotated s c))) (win (rotated s c)).
Proof.
  unfold rotated at 1. cbn [this win].
  change (position (lookAt (target (this (rotated s c))) c)) with (position c).
  change (this (rotated s c)) with (turned (this s) (position c)).
  rewrite released_turned_fixed.
  unfold with_camera, rotated, with_camera. cbn [this win].
  unfold window.set_store. cbn [window.store window.scene window.camera].
  change (camera (released (turned (this s) (position c)))) with (camera (this s)).
  change (camera (turned (this s) (position c))) with (camera (this s)).
  rewrite insert_insert_eq.
  destruct (this s). reflexivity.
Qed.

(** C4: in the state a frame has left, once all eight flags are false,
    [updateView 0] returns that very state: the camera stays where it is
    and the look-target is recomputed to the value the frame before gave
    it, which is a function of the position, [lat] and [theta]. *)
Theorem idle_frame_is_fixed_point (timeDelta : Q) (s0 s1 : state) :
  updateView timeDelta s0 = Ok (tt, s1) ->
  idle (released (this s1)) = true /\
  updateView 0 (mkState (released (this s1)) (win s1)) =
  Ok (tt, mkState (released (this s1)) (win s1)) /\
  exists c1,
    window.store (win s1) !! camera (this s1) = Some c1 /\
    target (this s1) = look_target (position c1) (lat (this s1)) (theta (this s1)).
Proof.
  intros H. destruct (updateView_inv timeDelta s0 s1 H) as [s [c [_ [L ->]]]].
  split; [reflexivity|]. split.
  - unfold updateView, bind.
    rewrite translateView_idle by (destruct s as [k w]; destruct k; reflexivity).
    rewrite (rotateView_run 0 _ (lookAt (target (this (rotated s c))) c)).
    + rewrite rotated_released_fixed. reflexivity.
    + destruct s as [k w]; destruct k. unfold rotated, with_camera. fields.
      apply lookup_insert_eq.
  - exists (lookAt (target (this (rotated s c))) c). split.
    + apply with_camera_lookup.
    + destruct s as [k w]; destruct k. reflexivity.
Qed.

(** C6: every invocation of [updateView] in a state whose globals are bound
    returns; it takes [lookSpeed] off [theta] when the yaw-left flag is set
    and adds [lookSpeed] to it when the yaw-right flag is set, whatever the
    elapsed time and whatever the probes met; and it leaves the camera
    oriented at the look-target of the new angles. *)
Theorem rotation_is_unconditional
        (timeDelta : Q) (s : state) (g c : Object3D) (sc : Scene) :
  binds s g c sc ->
  exists s' c',
    updateView timeDelta s = Ok (tt, s') /\
    theta (this s') =
    (let t1 := if yawLeft (this s) then theta (this s) - lookSpeed (this s)
               else theta (this s) in
     if yawRight (this s) then t1 + lookSpeed (this s) else t1) /\
    window.store (win s') !! camera (this s') = Some c' /\
    target (this s') = look_target (position c') (lat (this s')) (theta (this s')) /\
    quaternion c' = lookAt_quaternion (position c') (target (this s')) (up c').
Proof.
  intros Hb.
  destruct (updateView_run timeDelta s g c sc Hb) as [s1 [g1 [c1 [_ [P [_ [_ E]]]]]]].
  pose proof (repositioned_this s s1 c P) as Hk.
  exists (rotated s1 c1), (lookAt (target (this (rotated s1 c1))) c1).
  split; [exact E|]. split; [|split; [|split]].
  - rewrite <- Hk. destruct s1 as [k w]; destruct k. reflexivity.
  - apply with_camera_lookup.
  - destruct s1 as [k w]; destruct k. reflexivity.
  - destruct s1 as [k w]; destruct k. reflexivity.
Qed.

(** C10: [rotateView] writes [lat], [phi], [theta], the look-target and the
    orientation of the camera and nothing else, the position of the camera
    included; a move writes the position of the camera and nothing else. *)
Theorem frame_conditions
        (timeDelta units : Q) (m : Move) (s : state) (g c : Object3D) (sc : Scene) :
  binds s g c sc ->
  (exists s' q,
      rotateView timeDelta s = Ok (tt, s') /\
      window.store (win s') =
      <[camera (this s) := set_quaternion q c]> (window.store (win s)) /\
      position (set_quaternion q c) = position c /\
      window.scene (win s') = window.scene (win s) /\
      window.camera (win s') = window.camera (win s) /\
      exists T P L Th,
        this s' = set_target T (set_phi P (set_lat L (set_theta Th (this s))))) /\
  (exists s',
      attempt m units s = Ok (tt, s') /\
      this s' = this s /\
      window.scene (win s') = window.scene (win s) /\
      window.camera (win s') = window.camera (win s) /\
      (window.store (win s') = window.store (win s) \/
       exists p,
         window.store (win s') =
         <[camera (this s) := set_position p c]> (window.store (win s)) /\
         quaternion (set_position p c) = quaternion c)).
Proof.
  intros Hb. split.
  - exists (rotated s c). eexists.
    split; [apply rotateView_run; destruct Hb as [_ [_ Ht]]; exact Ht|].
    split; [unfold rotated, with_camera, lookAt; fields; reflexivity|].
    split; [reflexivity|]. split; [reflexivity|]. split; [reflexivity|].
    do 4 eexists. unfold rotated, with_camera. fields. unfold turned. reflexivity.
  - destruct (attempt_repositioned m units s c sc (binds_placed s g c sc Hb)) as [s' [E P]].
    exists s'. split; [exact E|]. destruct P as [-> | [p ->]].
    + repeat (split; [reflexivity|]). left. reflexivity.
    + repeat (split; [reflexivity|]). right. exists p. split; reflexivity.
Qed.

End Rotation.

(** ** The properties at concrete scenes *)

Lemma hall_binds : binds Bench.hall Bench.eye Bench.eye (mkScene [0%nat; 1%nat]).
Proof.
  split; [exists 0%nat; split; reflexivity | split; reflexivity].
Qed.

Lemma hall_collidables : getCollideableObjects Bench.hall = Ok ([0%nat; 1%nat], Bench.hall).
Proof. vm_compute. reflexivity. Qed.




Lemma pitch_stays_clamped_witness :
  binds Bench.hall Bench.eye Bench.eye (mkScene [0%nat; 1%nat]) /\
  exists s',
    @frames Bench.renderer ([(true, false, 1)] ++ [(true, true, 0)]) Bench.hall = Ok (tt, s') /\
    (-89 <= lat (this s') /\ lat (this s') <= 89) /\
    phi (this s') = degToRad (90 - lat (this s')) /\
    (degToRad 1 <= phi (this s') /\ phi (this s') <= degToRad 179) /\
    ~ phi (this s') == 0 /\ ~ phi (this s') == Math_PI.
Proof.
  split; [exact hall_binds|].
  exact (pitch_stays_clamped (R := Bench.renderer) [(true, false, 1)] (true, true, 0)
           Bench.hall Bench.eye Bench.eye (mkScene [0%nat; 1%nat]) hall_binds).
Defined.

Lemma hall_walked_frame :
  @updateView Bench.renderer (1 # 10) Bench.hall_walking = Ok (tt, Bench.hall_walked).
Proof. vm_compute. reflexivity. Qed.

Lemma idle_frame_is_fixed_point_witness :
  @updateView Bench.renderer (1 # 10) Bench.hall_walking = Ok (tt, Bench.hall_walked) /\
  @updateView Bench.renderer 0
    (mkState (released (this Bench.hall_walked)) (win Bench.hall_walked)) =
  Ok (tt, mkState (released (this Bench.hall_walked)) (win Bench.hall_walked)).
Proof.
  split; [exact hall_walked_frame|].
  exact (proj1 (proj2 (idle_frame_is_fixed_point (R := Bench.renderer) (1 # 10)
                         Bench.hall_walking Bench.hall_walked hall_walked_frame))).
Defined.

Lemma hall_walking_binds :
  binds Bench.hall_walking Bench.eye Bench.eye (mkScene [0%nat; 1%nat]).
Proof.
  split; [exists 0%nat; split; reflexivity | split; reflexivity].
Qed.

Lemma rotation_is_unconditional_witness :
  binds Bench.hall_walking Bench.eye Bench.eye (mkScene [0%nat; 1%nat]) /\
  exists s' c',
    @updateView Bench.renderer (1 # 10) Bench.hall_walking = Ok (tt, s') /\
    theta (this s') =
    (let t1 := if yawLeft (this Bench.hall_walking)
               then theta (this Bench.hall_walking) - lookSpeed (this Bench.hall_walking)
               else theta (this Bench.hall_walking) in
     if yawRight (this Bench.hall_walking)
     then t1 + lookSpeed (this Bench.hall_walking) else t1) /\
    window.store (win s') !! camera (this s') = Some c' /\
    target (this s') =
    @look_target Bench.renderer (position c') (lat (this s')) (theta (this s')) /\
    quaternion c' = @lookAt_quaternion Bench.renderer (position c') (target (this s')) (up c').
Proof.
  split; [exact hall_walking_binds|].
  exact (rotation_is_unconditional (R := Bench.renderer) (1 # 10) Bench.hall_walking
           Bench.eye Bench.eye (mkScene [0%nat; 1%nat]) hall_walking_binds).
Defined.


(** The camera and a light are among the collidable objects. *)
Lemma collidable_filter_is_vacuous_witness :
  window.scene (win Bench.lit) = Some (mkScene [0%nat; 1%nat; 2%nat]) /\
  window.store (win Bench.lit) !! camera (this Bench.lit) = Some Bench.eye /\
  children_allocated Bench.lit = true /\
  In (camera (this Bench.lit)) [0%nat; 1%nat; 2%nat] /\
  window.store (win Bench.lit) !! 2%nat = Some Bench.lamp /\
  constructor Bench.lamp = Ctor.DirectionalLight /\
  getCollideableObjects Bench.lit = Ok ([0%nat; 1%nat; 2%nat], Bench.lit).
Proof.
  split; [reflexivity|]. split; [reflexivity|]. split; [reflexivity|].
  split; [left; reflexivity|]. split; [reflexivity|]. split; [reflexivity|].
  exact (proj1 (collidable_filter_is_vacuous (R := Bench.renderer) Bench.lit Bench.eye
                  (mkScene [0%nat; 1%nat; 2%nat]) eq_refl eq_refl eq_refl)).
Defined.

Lemma frame_conditions_witness :
  binds Bench.hall Bench.eye Bench.eye (mkScene [0%nat; 1%nat]) /\
  (exists s' q,
      @rotateView Bench.renderer 1 Bench.hall = Ok (tt, s') /\
      window.store (win s') =
      <[camera (this Bench.hall) := set_quaternion q Bench.eye]>
        (window.store (win Bench.hall)) /\
      position (set_quaternion q Bench.eye) = position Bench.eye /\
      window.scene (win s') = window.scene (win Bench.hall) /\
      window.camera (win s') = window.camera (win Bench.hall) /\
      exists T P L Th,
        this s' = set_target T (set_phi P (set_lat L (set_theta Th (this Bench.hall))))) /\
  (exists s',
      @attempt Bench.renderer Left 3 Bench.hall = Ok (tt, s') /\
      this s' = this Bench.hall /\
      window.scene (win s') = window.scene (win Bench.hall) /\
      window.camera (win s') = window.camera (win Bench.hall) /\
      (window.store (win s') = window.store (win Bench.hall) \/
       exists p,
         window.store (win s') =
         <[camera (this Bench.hall) := set_position p Bench.eye]>
           (window.store (win Bench.hall)) /\
         quaternion (set_position p Bench.eye) = quaternion Bench.eye)).
Proof.
  split; [exact hall_binds|].
  exact (frame_conditions (R := Bench.renderer) 1 3 Left Bench.hall Bench.eye Bench.eye
           (mkScene [0%nat; 1%nat]) hall_binds).
Defined.

(** * Further properties of the code *)

(** ** The key handlers, key by key *)

(** X1: a key event whose code has no case in the handlers leaves the
    controller as it was, on key-down and on key-up. *)
Theorem unrecognised_key_is_ignored (event : KeyEvent) (k : t) :
  recognised (keyCode event) = false ->
  onKeyDown event k = k /\ onKeyUp event k = k.
Proof.
  unfold onKeyDown, onKeyUp, recognised. destruct event as [code]. cbn [keyCode].
  destruct code as [|p|p]; try (intros _; split; reflexivity).
  repeat (destruct p as [p|p|]; try (intros _; split; reflexivity);
          try (intros E; discriminate E)).
Qed.



(** X2: for every key but escape a repeated key-down (auto-repeat) or key-up
    changes nothing further, and a key-up after a key-down leaves what the
    key-up alone leaves. *)
Theorem key_repeat_is_harmless (event : KeyEvent) (k : t) :
  keyCode event <> 27%Z ->
  onKeyDown event (onKeyDown event k) = onKeyDown event k /\
  onKeyUp event (onKeyUp event k) = onKeyUp event k /\
  onKeyUp event (onKeyDown event k) = onKeyUp event k.
Proof.
  unfold onKeyDown, onKeyUp. destruct event as [code]. cbn [keyCode].
  destruct code as [|p|p]; try (intros _; repeat split; reflexivity).
  repeat (destruct p as [p|p|]; try (intros _; repeat split; reflexivity)).
  intros E. exfalso. apply E. reflexivity.
Qed.

Lemma handlers_keep (event : KeyEvent) (k : t) :
  (camera (onKeyDown event k) = camera k /\ lat (onKeyDown event k) = lat k /\
   pitchUp (onKeyDown event k) = pitchUp k /\ pitchDown (onKeyDown event k) = pitchDown k) /\
  (camera (onKeyUp event k) = camera k /\ lat (onKeyUp event k) = lat k /\
   pitchUp (onKeyUp event k) = pitchUp k /\ pitchDown (onKeyUp event k) = pitchDown k).
Proof.
  unfold onKeyDown, onKeyUp. destruct event as [code]. cbn [keyCode].
  destruct code as [|p|p]; try (repeat split; reflexivity).
  repeat (destruct p as [p|p|]; try (repeat split; reflexivity)).
Qed.

(** X3: the handlers write the four translation flags, the two yaw flags
    and [freeze] and nothing else: not the pitch flags, not the angles, not the
    target, the speeds or the camera. *)
Theorem key_handlers_write_flags_only (event : KeyEvent) (k : t) :
  exists tf tb tl tr yr yl fz tf' tb' tl' tr' yr' yl' fz',
    onKeyDown event k =
    mk (camera k) (target k) (movementSpeed k) (lookSpeed k) (lookVertical k)
       (invertVertical k) (verticalMin k) (verticalMax k) (lat k) (lon k)
       (phi k) (theta k) tf tb tl tr yr yl (pitchUp k) (pitchDown k)
       (collisionMargin k) fz /\
    onKeyUp event k =
    mk (camera k) (target k) (movementSpeed k) (lookSpeed k) (lookVertical k)
       (invertVertical k) (verticalMin k) (verticalMax k) (lat k) (lon k)
       (phi k) (theta k) tf' tb' tl' tr' yr' yl' (pitchUp k) (pitchDown k)
       (collisionMargin k) fz'.
Proof.
  unfold onKeyDown, onKeyUp. destruct event as [code]. cbn [keyCode].
  destruct k as [cr tg ms ls lv iv vmin vmax la lo ph th tf tb tl tr yr yl pu pd cm fz].
  destruct code as [|p|p]; try (do 14 eexists; split; reflexivity).
  repeat (destruct p as [p|p|]; try (do 14 eexists; split; reflexivity)).
Qed.

Section Loop.
Context {R : Renderer}.

Lemma fresh_unallocated (h : gmap ref Object3D) : h !! fresh (dom h) = None.
Proof.
  apply not_elem_of_dom. apply is_fresh.
Qed.

Lemma onLoad_run (object : Object3D) (w : window.t) (sc : Scene) :
  window.scene w = Some sc ->
  main.onLoad object w =
  Ok (tt, window.mk
            (<[fresh (dom (window.store w)) :=
                 set_position (mkVector3 250 10 (z (position object))) object]>
               (window.store w))
            (Some (mkScene (scene_children sc ++ [fresh (dom (window.store w))])))
            (window.camera w)).
Proof.
  intros Hs. unfold main.onLoad, main.new_object, main.scene_add. run.
  cbn [window.scene window.set_store]. rewrite Hs. reflexivity.
Qed.

Lemma binds_initialised (s : state) (g c : Object3D) (sc : Scene) :
  binds s g c sc -> initialised s = true.
Proof.
  intros [[r [Hc Hg]] [Hs Ht]]. unfold initialised, allocated.
  rewrite Hc, Hs, Hg, Ht. reflexivity.
Qed.

Lemma initialised_binds (s : state) :
  initialised s = true -> exists g c sc, binds s g c sc.
Proof.
  unfold initialised, allocated, binds.
  destruct (window.camera (win s)) as [r|]; [|discriminate].
  destruct (window.scene (win s)) as [sc|]; [|discriminate].
  destruct (window.store (win s) !! r) as [g|] eqn:Hg; [|discriminate].
  destruct (window.store (win s) !! camera (this s)) as [c|] eqn:Ht; [|discriminate].
  intros _. exists g, c, sc. split; [exists r; split; [reflexivity | exact Hg]|].
  split; reflexivity.
Qed.

Lemma children_allocated_with_camera (o : Object3D) (s : state) :
  children_allocated s = true -> children_allocated (with_camera o s) = true.
Proof.
  unfold children_allocated, with_camera. cbn [win this window.scene window.set_store].
  destruct (window.scene (win s)) as [sc|]; [|discriminate].
  intros H. apply forallb_forall. intros r Hr.
  pose proof (proj1 (forallb_forall _ _) H r Hr) as Ha.
  unfold allocated in *. cbn [win window.store window.set_store].
  destruct (decide (camera (this s) = r)) as [-> | E].
  - rewrite lookup_insert_eq. reflexivity.
  - rewrite lookup_insert_ne by exact E. exact Ha.
Qed.

Lemma children_allocated_repositioned (s s' : state) (c : Object3D) :
  repositioned s c s' -> children_allocated s = true -> children_allocated s' = true.
Proof.
  intros [-> | [p ->]] H; [exact H | apply children_allocated_with_camera; exact H].
Qed.

Lemma sound_frame (delta : Q) (s : state) :
  sound s = true ->
  exists s', updateView delta s = Ok (tt, s') /\ sound s' = true.
Proof.
  unfold sound. intros H. apply andb_prop in H. destruct H as [Hi Ha].
  destruct (initialised_binds s Hi) as [g [c [sc Hb]]].
  destruct (updateView_run delta s g c sc Hb) as [s1 [g1 [c1 [_ [P [Hb1 [_ E]]]]]]].
  exists (rotated s1 c1). split; [exact E|].
  destruct (binds_rotated s1 g1 c1 sc Hb1) as [g' Hb'].
  rewrite (binds_initialised _ _ _ _ Hb'). cbn [andb].
  unfold rotated. apply children_allocated_with_camera.
  exact (children_allocated_repositioned s s1 c P Ha).
Qed.

Lemma handler_camera (event : KeyEvent) (k : t) :
  camera (onKeyDown event k) = camera k /\ camera (onKeyUp event k) = camera k.
Proof.
  destruct (handlers_keep event k) as [[H1 _] [H2 _]]. split; assumption.
Qed.

Lemma sound_assign (f : t -> t) (s : state) :
  camera (f (this s)) = camera (this s) ->
  sound s = true -> sound (mkState (f (this s)) (win s)) = true.
Proof.
  unfold sound, initialised, children_allocated, allocated. cbn [this win].
  intros ->. intros H. exact H.
Qed.

Lemma sound_loaded (object : Object3D) (s : state) :
  sound s = true ->
  exists s', on_window (main.onLoad object) s = Ok (tt, s') /\ sound s' = true.
Proof.
  unfold sound. intros H. apply andb_prop in H. destruct H as [Hi Ha].
  unfold initialised in Hi. unfold children_allocated in Ha.
  destruct (window.camera (win s)) as [r|] eqn:Hc; [|discriminate].
  destruct (window.scene (win s)) as [sc|] eqn:Hs; [|discriminate].
  apply andb_prop in Hi. destruct Hi as [Hg Ht].
  unfold on_window. rewrite (onLoad_run object (win s) sc Hs).
  eexists. split; [reflexivity|].
  set (r' := fresh (dom (window.store (win s)))).
  assert (Hkeep : forall q sc' cam', allocated s q = true ->
                            allocated
                              (mkState (this s)
                                 (window.mk
                                    (<[r' := set_position (mkVector3 250 10 (z (position object)))
                                                          object]> (window.store (win s)))
                                    sc' cam')) q = true).
  { intros q sc' cam'. unfold allocated. cbn [win window.store].
    destruct (decide (r' = q)) as [-> | E].
    - rewrite lookup_insert_eq. reflexivity.
    - rewrite lookup_insert_ne by exact E. intros Hq. exact Hq. }
  unfold initialised, children_allocated. cbn [win this window.camera window.scene].
  rewrite Hc. cbn [scene_children].
  apply andb_true_intro. split.
  { apply andb_true_intro. split; apply Hkeep; assumption. }
  rewrite forallb_app. apply andb_true_intro. split.
  - apply forallb_forall. intros q Hq. apply Hkeep.
    exact (proj1 (forallb_forall _ _) Ha q Hq).
  - cbn [forallb]. unfold allocated. cbn [win window.store].
    rewrite lookup_insert_eq. reflexivity.
Qed.

Lemma sound_dispatch (i : Input) (s : state) :
  sound s = true ->
  exists s', dispatch i s = Ok (tt, s') /\ sound s' = true.
Proof.
  intros H. destruct i as [e | e | delta | object]; cbn [dispatch].
  - eexists. split; [reflexivity|].
    apply sound_assign; [apply handler_camera | exact H].
  - eexists. split; [reflexivity|].
    apply sound_assign; [apply handler_camera | exact H].
  - apply sound_frame. exact H.
  - apply sound_loaded. exact H.
Qed.

(** X4: from a state in which the globals and [this.camera] are bound and
    the children of the scene denote objects, every sequence of key events,
    frames and loader callbacks runs to the end without throwing, and leaves
    such a state. *)
Theorem event_loop_never_throws (inputs : list Input) (s : state) :
  sound s = true ->
  exists s', run inputs s = Ok (tt, s') /\ sound s' = true.
Proof.
  revert s. induction inputs as [|i inputs IH]; intros s H.
  - exists s. split; [reflexivity | exact H].
  - destruct (sound_dispatch i s H) as [s1 [E1 H1]].
    destruct (IH s1 H1) as [s' [E' H']].
    exists s'. split; [|exact H'].
    cbn [run]. unfold bind. rewrite E1. exact E'.
Qed.
End Loop.

(** ** The loader callback *)

Section Loader.

Context {R : Renderer}.

(** X6: the loader callback stores the model under a new reference at x 250
    and y 10, appends it to the children of the scene, so that it is the last
    element of the collidable set from then on, and leaves every other object
    and the controller as they were. *)
Theorem loaded_model_becomes_collidable (object : Object3D) (s : state) :
  sound s = true ->
  exists s' r rs,
    on_window (main.onLoad object) s = Ok (tt, s') /\
    window.store (win s) !! r = None /\
    window.store (win s') !! r =
    Some (set_position (mkVector3 250 10 (z (position object))) object) /\
    (forall q, q <> r -> window.store (win s') !! q = window.store (win s) !! q) /\
    getCollideableObjects s = Ok (rs, s) /\
    getCollideableObjects s' = Ok (rs ++ [r], s') /\
    this s' = this s /\
    sound s' = true.
Proof.
  intros H. destruct (sound_loaded object s H) as [s' [E H']].
  pose proof H as H0. unfold sound in H0. apply andb_prop in H0. destruct H0 as [Hi Ha].
  unfold initialised in Hi. 
  destruct (window.camera (win s)) as [rc|] eqn:Hc; [|discriminate].
  destruct (window.scene (win s)) as [sc|] eqn:Hs; [|discriminate].
  unfold on_window in E. rewrite (onLoad_run object (win s) sc Hs) in E.
  injection E as E. 
  exists s', (fresh (dom (window.store (win s)))), (scene_children sc).
  split; [unfold on_window; rewrite (onLoad_run object (win s) sc Hs); rewrite E; reflexivity|].
  split; [apply fresh_unallocated|].
  rewrite <- E. cbn [win this window.store].
  split; [apply lookup_insert_eq|].
  split; [intros q Hq; apply lookup_insert_ne; congruence|].
  split.
  { rewrite (getCollideableObjects_run s sc Hs).
    unfold children_allocated in Ha. rewrite Hs in Ha.
    rewrite (filter_allocated s _ Ha). reflexivity. }
  split; [|split; [reflexivity | rewrite E; exact H']].
  rewrite E.
  assert (Hs' : window.scene (win s') =
                Some (mkScene (scene_children sc ++ [fresh (dom (window.store (win s)))])))
    by (rewrite <- E; reflexivity).
  rewrite (getCollideableObjects_run s' _ Hs').
  unfold sound in H'. apply andb_prop in H'. destruct H' as [_ Ha'].
  unfold children_allocated in Ha'. rewrite Hs' in Ha'.
  rewrite (filter_allocated s' _ Ha'). reflexivity.
Qed.
End Loader.

(** ** When a frame throws *)


Section Errors.
Context {R : Renderer}.

Lemma attempt_throws (m : Move) (units : Q) (s : state) :
  allocated s (camera (this s)) && scene_bound s = false ->
  attempt m units s = Throw TypeError.
Proof.
  unfold allocated, scene_bound. intros H.
  destruct m; unfold attempt, translateViewZ, translateViewX, getCollideableObjects; run.
  all: destruct (window.store (win s) !! camera (this s)) as [c|]; [|reflexivity].
  all: destruct (window.scene (win s)) as [sc|]; [|reflexivity].
  all: discriminate H.
Qed.

Lemma translateView_throws (timeDelta : Q) (s : state) :
  translating (this s) = true ->
  allocated s (camera (this s)) && scene_bound s = false ->
  translateView timeDelta s = Throw TypeError.
Proof.
  unfold translating. intros Hf Hn. rewrite translateView_unfold.
  unfold bind, get_this.
  destruct (translateForward (this s)); cbn [when ret];
    [rewrite attempt_throws by exact Hn; reflexivity|].
  destruct (translateBackward (this s)); cbn [when ret];
    [rewrite attempt_throws by exact Hn; reflexivity|].
  destruct (translateLeft (this s)); cbn [when ret];
    [rewrite attempt_throws by exact Hn; reflexivity|].
  destruct (translateRight (this s)); cbn [when ret];
    [rewrite attempt_throws by exact Hn; reflexivity|].
  discriminate Hf.
Qed.

(** X7: a frame returns exactly when [this.camera] denotes an object and,
    if a translation flag is set, the global [scene] is assigned; otherwise it
    throws a TypeError.  The global [camera] is not read, and a frame without
    translation flags reads no global at all. *)
Theorem frame_returns_iff_ready (timeDelta : Q) (s : state) :
  (frame_ready s = true -> exists s', updateView timeDelta s = Ok (tt, s')) /\
  (frame_ready s = false -> updateView timeDelta s = Throw TypeError).
Proof.
  unfold frame_ready. split.
  - intros H. apply andb_prop in H. destruct H as [Ht Hg].
    unfold allocated in Ht.
    destruct (window.store (win s) !! camera (this s)) as [c|] eqn:L; [|discriminate].
    destruct (scene_bound s) eqn:G.
    + unfold scene_bound in G.
      destruct (window.scene (win s)) as [sc|] eqn:Hs; [|discriminate].
      destruct (updateView_placed timeDelta s c sc (conj Hs L)) as [s1 [c1 [_ [_ E]]]].
      eexists. exact E.
    + rewrite orb_false_r in Hg. apply negb_true_iff in Hg.
      unfold translating in Hg.
      apply orb_false_elim in Hg. destruct Hg as [Hg H4].
      apply orb_false_elim in Hg. destruct Hg as [Hg H3].
      apply orb_false_elim in Hg. destruct Hg as [H1 H2].
      exists (rotated s c). unfold updateView, bind.
      rewrite (translateView_idle timeDelta s H1 H2 H3 H4).
      apply rotateView_run. exact L.
  - intros H. unfold updateView, bind.
    destruct (translating (this s)) eqn:T.
    + rewrite translateView_throws; [reflexivity | exact T |].
      cbn [negb orb] in H. exact H.
    + cbn [negb orb] in H. rewrite andb_true_r in H.
      unfold translating in T.
      apply orb_false_elim in T. destruct T as [T H4].
      apply orb_false_elim in T. destruct T as [T H3].
      apply orb_false_elim in T. destruct T as [H1 H2].
      rewrite (translateView_idle timeDelta s H1 H2 H3 H4).
      apply rotateView_throws. unfold allocated in H.
      destruct (window.store (win s) !! camera (this s)); [discriminate H | reflexivity].
Qed.
End Errors.

(** ** Where a move goes *)


Section Motion.
Context {R : Renderer}.

(** X8: a move along the view axis displaces a camera by [units] times the
    direction its own orientation gives the probe; the backward and the left
    direction are the forward and the right one negated; the sideways
    directions are horizontal. *)
Theorem probes_point_along_the_move (o : Object3D) (units : Q) (forward right : bool) :
  veq (position (translateZ ((if forward then -1 else 1) * units) o))
      (add (position o)
           (multiplyScalar (translateViewZ_direction forward (quaternion o)) units)) /\
  veq (translateViewZ_direction false (quaternion o))
      (multiplyScalar (translateViewZ_direction true (quaternion o)) (-1)) /\
  veq (translateViewX_direction false (quaternion o))
      (multiplyScalar (translateViewX_direction true (quaternion o)) (-1)) /\
  y (translateViewX_direction right (quaternion o)) == 0.
Proof.
  destruct o as [ct [px py pz] [a b c d] u ge ch].
  destruct forward, right;
    unfold veq, translateZ, translateOnAxis, set_position, translateViewZ_direction,
      translateViewX_direction, applyQuaternion, multiplyScalar, add, cross, clone;
    cbn [position quaternion x y z qx qy qz qw]; repeat (apply conj); ring.
Qed.

Lemma with_camera_id (s : state) (c : Object3D) :
  window.store (win s) !! camera (this s) = Some c -> with_camera c s = s.
Proof.
  intros L. unfold with_camera, window.set_store. rewrite (insert_id _ _ _ L).
  destruct s as [k w]. destruct w. reflexivity.
Qed.

Lemma free_intersections (rc : Raycaster) (os : list Object3D) (recursive : bool) :
  no_geometry -> intersectObjects rc os recursive = [].
Proof.
  intros Hn. unfold intersectObjects, rayHits.
  destruct (degenerate (ray rc)); [reflexivity|].
  assert (E : forall l, flat_map (raycast (ray rc)) l = []).
  { induction l as [|o l IH]; [reflexivity|]. cbn [flat_map]. rewrite Hn, IH. reflexivity. }
  rewrite E. reflexivity.
Qed.

Lemma free_step (b : bool) (m : Move) (u : Q) (s0 : state) (c : Object3D) (sc : Scene) :
  no_geometry ->
  placed (with_camera c s0) c sc ->
  when b (attempt m u) (with_camera c s0) = Ok (tt, with_camera (moved_by b m u c) s0) /\
  placed (with_camera (moved_by b m u c) s0) (moved_by b m u c) sc.
Proof.
  intros Hn Hp. destruct b; cbn [when moved_by].
  - destruct (placed_collidables _ c sc Hp) as [rs Hrs].
    rewrite (attempt_run m u _ c rs (proj2 Hp) Hrs).
    rewrite free_intersections by exact Hn. cbn [length Nat.ltb Nat.leb].
    rewrite with_camera_twice.
    pose proof (placed_with_camera _ c (translateOnAxis (local_axis m) (signed m u) c) sc Hp)
      as Hp'.
    rewrite with_camera_twice in Hp'. split; [reflexivity | exact Hp'].
  - split; [reflexivity | exact Hp].
Qed.

Lemma free_translateView_run (timeDelta : Q) (s : state) (c : Object3D) (sc : Scene) :
  no_geometry ->
  placed s c sc ->
  translateView timeDelta s =
  Ok (tt, with_camera
            (moved_by (translateRight (this s)) Right (timeDelta * movementSpeed (this s))
               (moved_by (translateLeft (this s)) Left (timeDelta * movementSpeed (this s))
                  (moved_by (translateBackward (this s)) Backward
                            (timeDelta * movementSpeed (this s))
                     (moved_by (translateForward (this s)) Forward
                               (timeDelta * movementSpeed (this s)) c)))) s).
Proof.
  intros Hn Hb. set (u := timeDelta * movementSpeed (this s)).
  assert (L : window.store (win s) !! camera (this s) = Some c) by exact (proj2 Hb).
  pose proof (with_camera_id s c L) as Hid.
  rewrite <- Hid in Hb.
  destruct (free_step (translateForward (this s)) Forward u s c sc Hn Hb) as [E1 Hb1].
  set (c1 := moved_by (translateForward (this s)) Forward u c) in *.
  destruct (free_step (translateBackward (this s)) Backward u s c1 sc Hn Hb1) as [E2 Hb2].
  set (c2 := moved_by (translateBackward (this s)) Backward u c1) in *.
  destruct (free_step (translateLeft (this s)) Left u s c2 sc Hn Hb2) as [E3 Hb3].
  set (c3 := moved_by (translateLeft (this s)) Left u c2) in *.
  destruct (free_step (translateRight (this s)) Right u s c3 sc Hn Hb3) as [E4 Hb4].
  rewrite translateView_unfold. fold u. rewrite <- Hid at 1 2.
  unfold bind at 1. change (this (with_camera c s)) with (this s). rewrite E1.
  unfold bind at 1. unfold bind at 1. unfold get_this at 1.
  change (this (with_camera c1 s)) with (this s). rewrite E2.
  unfold bind at 1. unfold bind at 1. unfold get_this at 1.
  change (this (with_camera c2 s)) with (this s). rewrite E3.
  unfold bind at 1. unfold get_this at 1.
  change (this (with_camera c3 s)) with (this s). exact E4.
Qed.

(** X9: where no ray meets anything, [translateView] makes the moves whose
    flags are set one after the other, forward, backward, left, right, each
    along the local axis of the camera from where the move before left it, and
    leaves the orientation and the controller as they were. *)
Theorem free_moves_run_in_order (timeDelta : Q) (s : state) (c : Object3D) (sc : Scene) :
  no_geometry ->
  window.scene (win s) = Some sc ->
  window.store (win s) !! camera (this s) = Some c ->
  let u := timeDelta * movementSpeed (this s) in
  let step (b : bool) (axis : Vector3) (distance : Q) (o : Object3D) :=
    if b then translateOnAxis axis distance o else o in
  let c' :=
    step (translateRight (this s)) (mkVector3 1 0 0) (1 * u)
      (step (translateLeft (this s)) (mkVector3 1 0 0) (-1 * u)
         (step (translateBackward (this s)) (mkVector3 0 0 1) (1 * u)
            (step (translateForward (this s)) (mkVector3 0 0 1) (-1 * u) c))) in
  translateView timeDelta s = Ok (tt, with_camera c' s) /\
  quaternion c' = quaternion c /\
  this (with_camera c' s) = this s.
Proof.
  intros Hn Hs Ht u step c'.
  split; [|split; [|reflexivity]].
  - rewrite (free_translateView_run timeDelta s c sc Hn (conj Hs Ht)). reflexivity.
  - unfold c', step.
    destruct (translateForward (this s)), (translateBackward (this s)),
      (translateLeft (this s)), (translateRight (this s)); reflexivity.
Qed.

End Motion.

(** ** What a frame writes *)


Section Whole.
Context {R : Renderer}.

(** X10: a frame writes the position and orientation of the object behind
    [this.camera] and the controller's [theta], [lat], [phi] and [target];
    the flags, the speeds, the globals and every other object stay as they
    were. *)
Theorem frame_touches_one_object (timeDelta : Q) (s : state) (g c : Object3D) (sc : Scene) :
  binds s g c sc ->
  exists s' p q T P L Th,
    updateView timeDelta s = Ok (tt, s') /\
    this s' = set_target T (set_phi P (set_lat L (set_theta Th (this s)))) /\
    window.scene (win s') = window.scene (win s) /\
    window.camera (win s') = window.camera (win s) /\
    window.store (win s') !! camera (this s) = Some (set_quaternion q (set_position p c)) /\
    (forall r, r <> camera (this s) ->
               window.store (win s') !! r = window.store (win s) !! r).
Proof.
  intros Hb.
  destruct (updateView_run timeDelta s g c sc Hb) as [s1 [g1 [c1 [_ [P [Hb1 [Hc1 E]]]]]]].
  assert (Hc : c1 = set_position (position c1) c).
  { destruct Hc1 as [-> | [p ->]]; [destruct c|]; reflexivity. }
  assert (L1 : window.store (win s1) !! camera (this s1) = Some c1)
    by (destruct Hb1 as [_ [_ L1]]; exact L1).
  exists (rotated s1 c1), (position c1),
    (lookAt_quaternion (position c1) (target (turned (this s1) (position c1))) (up c1)).
  do 4 eexists.
  split; [exact E|].
  destruct P as [-> | [p ->]].
  - split; [unfold rotated, with_camera, turned; cbn [this]; reflexivity|].
    split; [reflexivity|]. split; [reflexivity|]. split.
    + unfold rotated, with_camera, lookAt. cbn [this win window.store window.set_store].
      rewrite lookup_insert_eq. rewrite <- Hc. reflexivity.
    + intros r Hr. unfold rotated, with_camera, turned. fields.
      apply lookup_insert_ne. exact (not_eq_sym Hr).
  - split; [unfold rotated, with_camera, turned; cbn [this]; reflexivity|].
    split; [reflexivity|]. split; [reflexivity|]. split.
    + unfold rotated, with_camera, lookAt. cbn [this win window.store window.set_store].
      rewrite lookup_insert_eq. rewrite <- Hc. reflexivity.
    + intros r Hr. unfold rotated, with_camera, turned. fields.
      rewrite lookup_insert_ne by exact (not_eq_sym Hr).
      apply lookup_insert_ne. exact (not_eq_sym Hr).
Qed.
End Whole.

(** ** The pitch and the keyboard *)


Section Pitch.
Context {R : Renderer}.

Lemma pitched_idle (k : t) :
  pitchUp k = false -> pitchDown k = false -> pitched k = lat k.
Proof.
  intros H1 H2. unfold pitched. rewrite H1, H2. destruct (lookVertical k); reflexivity.
Qed.

Lemma clamped_in_range (l : Q) : -89 <= l -> l <= 89 -> clamped l == l.
Proof.
  intros H1 H2. unfold clamped, Math_max, Math_min.
  rewrite (Q.min_r 89 l H2). apply Q.max_r. exact H1.
Qed.

Lemma dispatch_keeps_pitch (i : Input) (s : state) :
  sound s = true ->
  pitchUp (this s) = false -> pitchDown (this s) = false ->
  -89 <= lat (this s) -> lat (this s) <= 89 ->
  exists s',
    dispatch i s = Ok (tt, s') /\ sound s' = true /\
    lat (this s') == lat (this s) /\
    pitchUp (this s') = false /\ pitchDown (this s') = false.
Proof.
  intros Hs Hu Hd H1 H2.
  destruct (sound_dispatch i s Hs) as [s' [E Hs']].
  exists s'. split; [exact E|]. split; [exact Hs'|].
  destruct i as [e | e | delta | object]; cbn [dispatch] in E.
  - injection E as <-. cbn [this].
    destruct (handlers_keep e (this s)) as [[_ [Hl [Hp Hq]]] _].
    rewrite Hl, Hp, Hq. split; [reflexivity|]. split; assumption.
  - injection E as <-. cbn [this].
    destruct (handlers_keep e (this s)) as [_ [_ [Hl [Hp Hq]]]].
    rewrite Hl, Hp, Hq. split; [reflexivity|]. split; assumption.
  - unfold sound in Hs. apply andb_prop in Hs. destruct Hs as [Hi _].
    destruct (initialised_binds s Hi) as [g [c [sc Hb]]].
    destruct (updateView_run delta s g c sc Hb) as [s1 [g1 [c1 [_ [P [_ [_ E1]]]]]]].
    unfold main.render in E. rewrite E1 in E. injection E as <-.
    pose proof (repositioned_this s s1 c P) as Hk.
    unfold rotated, with_camera, turned. fields. rewrite Hk.
    rewrite (pitched_idle (this s) Hu Hd).
    split; [apply clamped_in_range; assumption|]. split; assumption.
  - unfold on_window in E.
    destruct (main.onLoad object (win s)) as [[[] w]|]; [|discriminate E].
    injection E as <-. cbn [this]. split; [reflexivity|]. split; assumption.
Qed.

(** X11: in this revision no key drives the pitch: along any sequence of
    key events, frames and loader callbacks the pitch flags stay false and
    [lat] keeps its value. *)
Theorem keyboard_never_pitches (inputs : list Input) (s : state) :
  sound s = true ->
  pitchUp (this s) = false -> pitchDown (this s) = false ->
  -89 <= lat (this s) -> lat (this s) <= 89 ->
  exists s',
    run inputs s = Ok (tt, s') /\
    lat (this s') == lat (this s) /\
    pitchUp (this s') = false /\ pitchDown (this s') = false.
Proof.
  revert s. induction inputs as [|i inputs IH]; intros s Hs Hu Hd H1 H2.
  - exists s. split; [reflexivity|]. split; [reflexivity|]. split; assumption.
  - destruct (dispatch_keeps_pitch i s Hs Hu Hd H1 H2) as [s1 [E1 [Hs1 [Hl [Hu1 Hd1]]]]].
    destruct (IH s1 Hs1 Hu1 Hd1 ltac:(lra) ltac:(lra)) as [s' [E' [Hl' [Hu' Hd']]]].
    exists s'. split; [|split; [lra|split; assumption]].
    cbn [run]. unfold bind. rewrite E1. exact E'.
Qed.
End Pitch.

(** ** The two revisions *)


Section Revisions.
Context {R : Renderer}.

Ltac run0 :=
  cbv beta iota delta
      [bind get Earlier.get_this defined ret throw when Earlier.assign modify put
       Earlier.deref].

Lemma earlier_update_unfold (timeDelta : Q) (s : Earlier.state) :
  Earlier.update timeDelta s =
  bind (when (translateForward (Earlier.base (Earlier.this s)))
             (Earlier.call (camera (Earlier.base (Earlier.this s)))
                           (translateZ (- (timeDelta * movementSpeed (Earlier.base (Earlier.this s)))))))
       (fun _ =>
          bind (bind Earlier.get_this
                     (fun k => when (translateBackward (Earlier.base k))
                                    (Earlier.call (camera (Earlier.base k))
                                                  (translateZ (timeDelta * movementSpeed (Earlier.base (Earlier.this s)))))))
               (fun _ =>
                  bind (bind Earlier.get_this
                             (fun k => when (translateLeft (Earlier.base k))
                                            (Earlier.call (camera (Earlier.base k))
                                                          (translateX (- (timeDelta * movementSpeed (Earlier.base (Earlier.this s))))))))
                       (fun _ =>
                          bind (bind Earlier.get_this
                                     (fun k => when (translateRight (Earlier.base k))
                                                    (Earlier.call (camera (Earlier.base k))
                                                                  (translateX (timeDelta * movementSpeed (Earlier.base (Earlier.this s)))))))
                               (fun _ => Earlier.update_rotation))))
       s.
Proof. reflexivity. Qed.

Ltac step0 :=
  run0; unfold Earlier.shared, Earlier.call; run0;
  cbn [Earlier.this Earlier.win Earlier.base Earlier.panLeft Earlier.panRight]; fields.

Lemma earlier_rotation_run (pl pr : option bool) (timeDelta : Q) (s : state) :
  Earlier.update_rotation (Earlier.of_later pl pr s) =
  match rotateView timeDelta s with
  | Ok (_, s') => Ok (tt, Earlier.of_later pl pr s')
  | Throw e => Throw e
  end.
Proof.
  destruct (window.store (win s) !! camera (this s)) as [c|] eqn:L.
  - rewrite (rotateView_run timeDelta s c L).
    destruct s as [k w].
    destruct k as [cr tg ms ls lv iv vmin vmax la lo ph th tf tb tl tr yr yl pu pd cm fz].
    cbn [this win camera] in L.
    unfold Earlier.update_rotation, Earlier.of_later, rotated, turned, yawed, pitched, clamped,
      with_camera.
    step0.
    destruct yl, yr, lv, pu, pd; repeat (progress step0 || rewrite L); reflexivity.
  - rewrite (rotateView_throws timeDelta s L).
    destruct s as [k w].
    destruct k as [cr tg ms ls lv iv vmin vmax la lo ph th tf tb tl tr yr yl pu pd cm fz].
    cbn [this win camera] in L.
    unfold Earlier.update_rotation, Earlier.of_later.
    step0.
    destruct yl, yr, lv, pu, pd; repeat (progress step0 || rewrite L); reflexivity.
Qed.

Lemma Qmult_m1_l (u : Q) : -1 * u = - u.
Proof.
  destruct u as [n d]. unfold Qmult, Qopp. cbn [Qnum Qden]. destruct n; reflexivity.
Qed.

Lemma Qmult_1_l_eq (u : Q) : 1 * u = u.
Proof.
  destruct u as [n d]. unfold Qmult. cbn [Qnum Qden]. destruct n; reflexivity.
Qed.

Lemma moved_by_translated (k : t) (u : Q) (c : Object3D) :
  moved_by (translateRight k) Right u
    (moved_by (translateLeft k) Left u
       (moved_by (translateBackward k) Backward u
          (moved_by (translateForward k) Forward u c))) =
  translated k u c.
Proof.
  unfold moved_by, translated, signed, local_axis, translateZ, translateX.
  rewrite Qmult_m1_l, Qmult_1_l_eq. reflexivity.
Qed.

Lemma earlier_call_run (pl pr : option bool) (b : bool) (f : Object3D -> Object3D)
      (s : state) (c : Object3D) :
  window.store (win s) !! camera (this s) = Some c ->
  when b (Earlier.call (camera (this s)) f) (Earlier.of_later pl pr s) =
  Ok (tt, Earlier.of_later pl pr (with_camera (if b then f c else c) s)).
Proof.
  intros L. destruct b; cbn [when].
  - unfold Earlier.call, Earlier.of_later. run0. cbn [Earlier.win Earlier.this].
    rewrite L. reflexivity.
  - rewrite (with_camera_id s c L). reflexivity.
Qed.

Lemma earlier_call_throws (pl pr : option bool) (f : Object3D -> Object3D) (s : state) :
  window.store (win s) !! camera (this s) = None ->
  Earlier.call (camera (this s)) f (Earlier.of_later pl pr s) = Throw TypeError.
Proof.
  intros L. unfold Earlier.call, Earlier.of_later. run0. cbn [Earlier.win Earlier.this].
  rewrite L. reflexivity.
Qed.

Lemma earlier_update_run (pl pr : option bool) (timeDelta : Q) (s : state) (c : Object3D) :
  window.store (win s) !! camera (this s) = Some c ->
  Earlier.update timeDelta (Earlier.of_later pl pr s) =
  Ok (tt, Earlier.of_later pl pr
            (rotated (with_camera (translated (this s) (timeDelta * movementSpeed (this s)) c) s)
                     (translated (this s) (timeDelta * movementSpeed (this s)) c))).
Proof.
  intros L. rewrite earlier_update_unfold.
  change (Earlier.base (Earlier.this (Earlier.of_later pl pr s))) with (this s).
  set (u := timeDelta * movementSpeed (this s)).
  unfold translated.
  set (c1 := if translateForward (this s) then translateZ (- u) c else c).
  set (c2 := if translateBackward (this s) then translateZ u c1 else c1).
  set (c3 := if translateLeft (this s) then translateX (- u) c2 else c2).
  set (c4 := if translateRight (this s) then translateX u c3 else c3).
  unfold bind at 1. rewrite (earlier_call_run pl pr _ _ s c L). fold c1.
  unfold bind at 1. unfold bind at 1. unfold Earlier.get_this at 1.
  change (Earlier.base (Earlier.this (Earlier.of_later pl pr (with_camera c1 s))))
    with (this (with_camera c1 s)).
  rewrite (earlier_call_run pl pr _ _ (with_camera c1 s) c1 (with_camera_lookup c1 s)).
  rewrite with_camera_twice. change (this (with_camera c1 s)) with (this s). fold c2.
  unfold bind at 1. unfold bind at 1. unfold Earlier.get_this at 1.
  change (Earlier.base (Earlier.this (Earlier.of_later pl pr (with_camera c2 s))))
    with (this (with_camera c2 s)).
  rewrite (earlier_call_run pl pr _ _ (with_camera c2 s) c2 (with_camera_lookup c2 s)).
  rewrite with_camera_twice. change (this (with_camera c2 s)) with (this s). fold c3.
  unfold bind at 1. unfold bind at 1. unfold Earlier.get_this at 1.
  change (Earlier.base (Earlier.this (Earlier.of_later pl pr (with_camera c3 s))))
    with (this (with_camera c3 s)).
  rewrite (earlier_call_run pl pr _ _ (with_camera c3 s) c3 (with_camera_lookup c3 s)).
  rewrite with_camera_twice. change (this (with_camera c3 s)) with (this s). fold c4.
  rewrite (earlier_rotation_run pl pr timeDelta (with_camera c4 s)).
  rewrite (rotateView_run timeDelta (with_camera c4 s) c4 (with_camera_lookup c4 s)).
  reflexivity.
Qed.

(** X12: where no ray meets anything a frame of the later revision
    ([updateView]) and a frame of the earlier one ([update]) leave the same
    state, [panLeft] and [panRight] apart, which [update] passes on. *)
Theorem revisions_agree_without_obstacles
        (pl pr : option bool) (timeDelta : Q) (s : state) (g c : Object3D) (sc : Scene) :
  no_geometry ->
  binds s g c sc ->
  exists s',
    updateView timeDelta s = Ok (tt, s') /\
    Earlier.update timeDelta (Earlier.of_later pl pr s) = Ok (tt, Earlier.of_later pl pr s').
Proof.
  intros Hn Hb.
  assert (L : window.store (win s) !! camera (this s) = Some c)
    by (destruct Hb as [_ [_ L]]; exact L).
  set (c' := translated (this s) (timeDelta * movementSpeed (this s)) c).
  exists (rotated (with_camera c' s) c'). split.
  - unfold updateView, bind.
    rewrite (free_translateView_run timeDelta s c sc Hn (binds_placed s g c sc Hb)).
    rewrite moved_by_translated. fold c'.
    apply rotateView_run. apply with_camera_lookup.
  - apply earlier_update_run. exact L.
Qed.

(** X13: [update] of the earlier revision returns exactly when
    [this.object] denotes an object, whatever the globals hold, and does not
    write them; otherwise it throws a TypeError. *)
Theorem earlier_update_needs_only_its_object
        (pl pr : option bool) (timeDelta : Q) (s : state) :
  (allocated s (camera (this s)) = true ->
   exists s',
     Earlier.update timeDelta (Earlier.of_later pl pr s) = Ok (tt, Earlier.of_later pl pr s') /\
     window.scene (win s') = window.scene (win s) /\
     window.camera (win s') = window.camera (win s)) /\
  (allocated s (camera (this s)) = false ->
   Earlier.update timeDelta (Earlier.of_later pl pr s) = Throw TypeError).
Proof.
  unfold allocated. split.
  - destruct (window.store (win s) !! camera (this s)) as [c|] eqn:L; [|discriminate].
    intros _. eexists. split; [apply (earlier_update_run pl pr timeDelta s c L)|].
    split; reflexivity.
  - destruct (window.store (win s) !! camera (this s)) as [c|] eqn:L; [discriminate|].
    intros _. rewrite earlier_update_unfold.
    change (Earlier.base (Earlier.this (Earlier.of_later pl pr s))) with (this s).
    unfold bind, Earlier.get_this.
    destruct (translateForward (this s)); cbn [when ret];
      [rewrite (earlier_call_throws pl pr _ s L); reflexivity|].
    change (Earlier.base (Earlier.this (Earlier.of_later pl pr s))) with (this s).
    destruct (translateBackward (this s)); cbn [when ret];
      [rewrite (earlier_call_throws pl pr _ s L); reflexivity|].
    change (Earlier.base (Earlier.this (Earlier.of_later pl pr s))) with (this s).
    destruct (translateLeft (this s)); cbn [when ret];
      [rewrite (earlier_call_throws pl pr _ s L); reflexivity|].
    change (Earlier.base (Earlier.this (Earlier.of_later pl pr s))) with (this s).
    destruct (translateRight (this s)); cbn [when ret];
      [rewrite (earlier_call_throws pl pr _ s L); reflexivity|].
    rewrite (earlier_rotation_run pl pr timeDelta s).
    rewrite (rotateView_throws timeDelta s L). reflexivity.
Qed.

(** X14: the handlers of the two revisions agree on every key but the four
    whose cases differ (38, 40, 81, 69); on those keys the earlier ones leave
    [panLeft] and [panRight] alone. *)
Theorem handlers_agree_off_remapped_keys (event : KeyEvent) (k : Earlier.t) :
  Earlier.remapped (keyCode event) = false ->
  Earlier.onKeyDown event k =
  Earlier.mk (onKeyDown event (Earlier.base k)) (Earlier.panLeft k) (Earlier.panRight k) /\
  Earlier.onKeyUp event k =
  Earlier.mk (onKeyUp event (Earlier.base k)) (Earlier.panLeft k) (Earlier.panRight k).
Proof.
  unfold Earlier.onKeyDown, Earlier.onKeyUp, onKeyDown, onKeyUp, Earlier.remapped.
  destruct event as [code]. cbn [keyCode]. destruct k as [b pl pr].
  destruct code as [|p|p]; try (intros _; split; reflexivity).
  repeat (destruct p as [p|p|]; try (intros _; split; reflexivity);
          try (intros E; discriminate E)).
Qed.
End Revisions.

(** ** The reach of a probe *)


Section Reach.
Context {R : Renderer}.

(** X15: a move whose distance plus the margin is negative has an empty
    probe range: it meets nothing and is always carried out. *)
Theorem negative_reach_never_blocks
        (m : Move) (units : Q) (s : state) (g c : Object3D) (sc : Scene) :
  binds s g c sc ->
  units + collisionMargin (this s) < 0 ->
  attempt m units s =
  Ok (tt, with_camera (translateOnAxis (local_axis m) (signed m units) c) s).
Proof.
  intros Hb Hneg.
  destruct (placed_collidables s c sc (binds_placed s g c sc Hb)) as [rs Hrs].
  rewrite (attempt_run m units s c rs (proj2 (binds_placed s g c sc Hb)) Hrs).
  unfold probe. rewrite intersections_within.
  rewrite reach_nonzero by lra.
  unfold within. rewrite filter_none; [reflexivity|].
  intros d _.
  destruct (Qle_bool 0 d) eqn:E1; [|reflexivity].
  destruct (Qle_bool d (units + collisionMargin (this s))) eqn:E2; [|reflexivity].
  apply Qle_bool_iff in E1. apply Qle_bool_iff in E2. lra.
Qed.

(** X16: a move that a probe blocks, the distance plus the margin not being
    0, stays blocked for every longer distance, the state being the same. *)
Theorem longer_step_is_never_freer
        (m : Move) (units units' : Q) (s : state) (c : Object3D) (rs : list ref) :
  window.store (win s) !! camera (this s) = Some c ->
  getCollideableObjects s = Ok (rs, s) ->
  (1 <= length (intersectObjects (probe m units s c) (objects s rs) true))%nat ->
  ~ units + collisionMargin (this s) == 0 ->
  units <= units' ->
  attempt m units s = Ok (tt, s) /\ attempt m units' s = Ok (tt, s).
Proof.
  intros Ht Hrs Hhit Hn Hle.
  rewrite (attempt_run m units s c rs Ht Hrs).
  rewrite (attempt_run m units' s c rs Ht Hrs).
  unfold probe in *. rewrite !intersections_within. rewrite intersections_within in Hhit.
  rewrite (reach_nonzero _ Hn) in *.
  set (hits := rayHits _ (objects s rs) true) in *.
  unfold within in *.
  destruct (List.filter (fun d => Qle_bool 0 d && Qle_bool d (units + collisionMargin (this s)))
                        hits) as [|d l] eqn:F;
    [cbn in Hhit; lia|].
  split; [reflexivity|].
  assert (Hd : In d (List.filter
                       (fun d => Qle_bool 0 d && Qle_bool d (units + collisionMargin (this s)))
                       hits))
    by (rewrite F; left; reflexivity).
  apply filter_In in Hd. destruct Hd as [Hin Hr].
  apply andb_prop in Hr. destruct Hr as [H0 H1].
  destruct (Qeq_bool (units' + collisionMargin (this s)) 0).
  - rewrite (filter_some _ _ d Hin); [reflexivity | exact H0].
  - rewrite (filter_some _ _ d Hin); [reflexivity|].
    apply andb_true_intro. split; [exact H0|].
    apply Qle_bool_iff. apply Qle_bool_iff in H1. lra.
Qed.
End Reach.

(** ** Angles over many frames *)


Section Accumulate.
Context {R : Renderer}.

Lemma yaw_step_agree (k k' : t) (th : Q) :
  yawRight k' = yawRight k -> yawLeft k' = yawLeft k -> lookSpeed k' = lookSpeed k ->
  yaw_step k' th = yaw_step k th.
Proof.
  intros Hr Hl Hv. unfold yaw_step. rewrite Hr, Hl, Hv. reflexivity.
Qed.

Lemma iter_agree {A : Type} (f g : A -> A) (n : nat) (a : A) :
  (forall a, f a = g a) -> Nat.iter n f a = Nat.iter n g a.
Proof.
  intros E. induction n as [|n IH]; [reflexivity|].
  change (f (Nat.iter n f a) = g (Nat.iter n g a)). rewrite IH. apply E.
Qed.

Lemma iter_shift {A : Type} (f : A -> A) (n : nat) (a : A) :
  Nat.iter n f (f a) = Nat.iter (S n) f a.
Proof.
  induction n as [|n IH]; [reflexivity|].
  change (f (Nat.iter n f (f a)) = f (Nat.iter (S n) f a)). rewrite IH. reflexivity.
Qed.

Lemma frame_yaw (delta : Q) (s : state) :
  sound s = true ->
  exists s',
    updateView delta s = Ok (tt, s') /\ sound s' = true /\
    theta (this s') = yawed (this s) /\
    yawRight (this s') = yawRight (this s) /\ yawLeft (this s') = yawLeft (this s) /\
    lookSpeed (this s') = lookSpeed (this s).
Proof.
  intros Hs. destruct (sound_frame delta s Hs) as [s' [E Hs']].
  exists s'. split; [exact E|]. split; [exact Hs'|].
  unfold sound in Hs. apply andb_prop in Hs. destruct Hs as [Hi _].
  destruct (initialised_binds s Hi) as [g [c [sc Hb]]].
  destruct (updateView_run delta s g c sc Hb) as [s1 [g1 [c1 [_ [P [_ [_ E1]]]]]]].
  rewrite E1 in E. injection E as <-.
  pose proof (repositioned_this s s1 c P) as Hk.
  unfold rotated, with_camera, turned. fields. rewrite Hk. repeat split.
Qed.

(** X17: over consecutive frames [theta] takes one yaw step per frame,
    [lookSpeed] off for the yaw-left flag and then [lookSpeed] on for the
    yaw-right flag, whatever the time steps of the frames; the frames leave the
    yaw flags and [lookSpeed] as they were. *)
Theorem yaw_accumulates_per_frame (deltas : list Q) (s : state) :
  sound s = true ->
  exists s',
    run (map Frame deltas) s = Ok (tt, s') /\
    theta (this s') = Nat.iter (length deltas) (yaw_step (this s)) (theta (this s)) /\
    yawRight (this s') = yawRight (this s) /\ yawLeft (this s') = yawLeft (this s) /\
    lookSpeed (this s') = lookSpeed (this s).
Proof.
  revert s. induction deltas as [|delta deltas IH]; intros s Hs.
  - exists s. split; [reflexivity|]. split; [reflexivity|]. repeat split.
  - destruct (frame_yaw delta s Hs) as [s1 [E1 [Hs1 [Ht [Hr [Hl Hv]]]]]].
    destruct (IH s1 Hs1) as [s' [E' [Ht' [Hr' [Hl' Hv']]]]].
    exists s'. split; [|split; [|split; [|split]]].
    + cbn [map run dispatch]. unfold bind, main.render. rewrite E1. exact E'.
    + rewrite Ht'. rewrite Ht.
      rewrite (iter_agree (yaw_step (this s1)) (yaw_step (this s)))
        by (intros a; apply yaw_step_agree; assumption).
      change (yawed (this s)) with (yaw_step (this s) (theta (this s))).
      cbn [length]. apply iter_shift.
    + congruence.
    + congruence.
    + congruence.
Qed.
End Accumulate.


Section Saturate.
Context {R : Renderer}.





End Saturate.

(** ** The further properties at concrete scenes *)

Lemma unrecognised_key_is_ignored_witness :
  recognised (keyCode (mkKeyEvent 32)) = false /\
  onKeyDown (mkKeyEvent 32) (this Bench.hall_walking) = this Bench.hall_walking /\
  onKeyUp (mkKeyEvent 32) (this Bench.hall_walking) = this Bench.hall_walking.
Proof.
  split; [reflexivity|].
  apply (unrecognised_key_is_ignored (mkKeyEvent 32) (this Bench.hall_walking)).
  reflexivity.
Defined.

Lemma key_repeat_is_harmless_witness :
  keyCode (mkKeyEvent 87) <> 27%Z /\
  onKeyDown (mkKeyEvent 87) (onKeyDown (mkKeyEvent 87) (new 0%nat)) =
  onKeyDown (mkKeyEvent 87) (new 0%nat).
Proof.
  assert (H : keyCode (mkKeyEvent 87) <> 27%Z) by (cbn; lia).
  split; [exact H|].
  exact (proj1 (key_repeat_is_harmless (mkKeyEvent 87) (new 0%nat) H)).
Defined.

Lemma hall_sound : sound Bench.hall = true.
Proof. reflexivity. Qed.

Lemma event_loop_never_throws_witness :
  sound Bench.hall = true /\
  exists s',
    @run Bench.renderer
         [KeyDown (mkKeyEvent 87); Frame (1 # 60); Loaded Bench.eye;
          KeyUp (mkKeyEvent 87); Frame (1 # 60)] Bench.hall = Ok (tt, s') /\
    sound s' = true.
Proof.
  split; [exact hall_sound|].
  exact (event_loop_never_throws (R := Bench.renderer) _ Bench.hall hall_sound).
Defined.

Lemma loaded_model_becomes_collidable_witness :
  sound Bench.hall = true /\
  exists s',
    on_window (main.onLoad (Bench.wall 10)) Bench.hall = Ok (tt, s') /\
    getCollideableObjects s' = Ok ([0%nat; 1%nat] ++ [2%nat], s').
Proof.
  split; [exact hall_sound|].
  destruct (loaded_model_becomes_collidable (Bench.wall 10) Bench.hall hall_sound)
    as (s' & r & rs & E & Hr & _ & _ & Hrs & Hrs' & _).
  exists s'. split; [exact E|].
  assert (rs = [0%nat; 1%nat]) as -> by (vm_compute in Hrs; congruence).
  assert (r = 2%nat) as ->.
  { unfold on_window in E. vm_compute in E. injection E as <-.
    vm_compute in Hrs'. injection Hrs' as Hrs'.
    destruct r as [|[|[|r]]]; try reflexivity; discriminate Hrs'. }
  exact Hrs'.
Defined.

(** A frame with W down returns in a page without the global [camera] and
    throws in a page without [scene]. *)
Lemma frame_returns_iff_ready_witness :
  (window.camera (win (mkState (this Bench.hall_walking)
                               (window.mk (window.store (win Bench.hall))
                                          (window.scene (win Bench.hall)) None))) = None /\
   frame_ready (mkState (this Bench.hall_walking)
                        (window.mk (window.store (win Bench.hall))
                                   (window.scene (win Bench.hall)) None)) = true /\
   exists s',
     @updateView Bench.renderer 1
       (mkState (this Bench.hall_walking)
                (window.mk (window.store (win Bench.hall))
                           (window.scene (win Bench.hall)) None)) = Ok (tt, s')) /\
  (frame_ready (mkState (this Bench.hall_walking) (win Bench.unstaged)) = false /\
   @updateView Bench.renderer 1 (mkState (this Bench.hall_walking) (win Bench.unstaged)) =
   Throw TypeError).
Proof.
  split.
  - split; [reflexivity|]. split; [reflexivity|].
    exact (proj1 (frame_returns_iff_ready (R := Bench.renderer) 1
                    (mkState (this Bench.hall_walking)
                             (window.mk (window.store (win Bench.hall))
                                        (window.scene (win Bench.hall)) None))) eq_refl).
  - split; [reflexivity|].
    exact (proj2 (frame_returns_iff_ready (R := Bench.renderer) 1
                    (mkState (this Bench.hall_walking) (win Bench.unstaged))) eq_refl).
Defined.

Lemma fog_no_geometry : @no_geometry Bench.fog.
Proof. intros r o. reflexivity. Qed.

Lemma free_moves_run_in_order_witness :
  @no_geometry Bench.fog /\
  window.scene (win Bench.hall_walking) = Some (mkScene [0%nat; 1%nat]) /\
  window.store (win Bench.hall_walking) !! camera (this Bench.hall_walking) = Some Bench.eye /\
  @translateView Bench.fog 60 Bench.hall_walking =
  Ok (tt, with_camera (translateOnAxis (mkVector3 0 0 1) (-1 * (60 * 1)) Bench.eye)
                      Bench.hall_walking).
Proof.
  split; [exact fog_no_geometry|]. split; [reflexivity|]. split; [reflexivity|].
  exact (proj1 (free_moves_run_in_order (R := Bench.fog) 60 Bench.hall_walking Bench.eye
                  (mkScene [0%nat; 1%nat]) fog_no_geometry eq_refl eq_refl)).
Defined.

Lemma frame_touches_one_object_witness :
  binds Bench.hall_walking Bench.eye Bench.eye (mkScene [0%nat; 1%nat]) /\
  exists s',
    @updateView Bench.renderer 1 Bench.hall_walking = Ok (tt, s') /\
    window.store (win s') !! 1%nat = window.store (win Bench.hall_walking) !! 1%nat /\
    translateForward (this s') = true.
Proof.
  split; [exact hall_walking_binds|].
  destruct (frame_touches_one_object (R := Bench.renderer) 1 Bench.hall_walking Bench.eye
              Bench.eye (mkScene [0%nat; 1%nat]) hall_walking_binds)
    as (s' & p & q & T & P & L & Th & E & Hk & _ & _ & _ & Hother).
  exists s'. split; [exact E|]. split.
  - apply Hother. cbn. lia.
  - rewrite Hk. reflexivity.
Defined.

Lemma keyboard_never_pitches_witness :
  sound Bench.hall = true /\
  exists s',
    @run Bench.renderer
         [KeyDown (mkKeyEvent 38); Frame (1 # 60); KeyDown (mkKeyEvent 40); Frame (1 # 60)]
         Bench.hall = Ok (tt, s') /\
    lat (this s') == lat (this Bench.hall) /\
    pitchUp (this s') = false /\ pitchDown (this s') = false.
Proof.
  split; [exact hall_sound|].
  apply (keyboard_never_pitches (R := Bench.renderer) _ Bench.hall hall_sound).
  - reflexivity.
  - reflexivity.
  - apply Qle_bool_iff. reflexivity.
  - apply Qle_bool_iff. reflexivity.
Defined.

Lemma revisions_agree_without_obstacles_witness :
  @no_geometry Bench.fog /\
  binds Bench.hall_walking Bench.eye Bench.eye (mkScene [0%nat; 1%nat]) /\
  exists s',
    @updateView Bench.fog 1 Bench.hall_walking = Ok (tt, s') /\
    @Earlier.update Bench.fog 1 (Earlier.of_later None None Bench.hall_walking) =
    Ok (tt, Earlier.of_later None None s').
Proof.
  split; [exact fog_no_geometry|]. split; [exact hall_walking_binds|].
  exact (revisions_agree_without_obstacles (R := Bench.fog) None None 1 Bench.hall_walking
           Bench.eye Bench.eye (mkScene [0%nat; 1%nat]) fog_no_geometry hall_walking_binds).
Defined.

Lemma earlier_update_needs_only_its_object_witness :
  (allocated (mkState (this Bench.hall_walking)
                      (window.mk (window.store (win Bench.hall_walking)) None None))
             0%nat = true /\
   exists s',
     @Earlier.update Bench.renderer 1
       (Earlier.of_later None None
          (mkState (this Bench.hall_walking)
                   (window.mk (window.store (win Bench.hall_walking)) None None))) =
     Ok (tt, Earlier.of_later None None s')) /\
  (allocated (mkState (this Bench.hall_walking) main.uninitialised) 0%nat = false /\
   @Earlier.update Bench.renderer 1
     (Earlier.of_later None None (mkState (this Bench.hall_walking) main.uninitialised)) =
   Throw TypeError).
Proof.
  split.
  - split; [reflexivity|].
    destruct (proj1 (earlier_update_needs_only_its_object (R := Bench.renderer) None None 1
                       (mkState (this Bench.hall_walking)
                                (window.mk (window.store (win Bench.hall_walking)) None None)))
                    eq_refl) as [s' [E _]].
    exists s'. exact E.
  - split; [reflexivity|].
    exact (proj2 (earlier_update_needs_only_its_object (R := Bench.renderer) None None 1
                    (mkState (this Bench.hall_walking) main.uninitialised)) eq_refl).
Defined.

Lemma handlers_agree_off_remapped_keys_witness :
  Earlier.remapped (keyCode (mkKeyEvent 87)) = false /\
  Earlier.onKeyDown (mkKeyEvent 87) (Earlier.new 0%nat) =
  Earlier.mk (onKeyDown (mkKeyEvent 87) (new 0%nat)) None None.
Proof.
  split; [reflexivity|].
  exact (proj1 (handlers_agree_off_remapped_keys (mkKeyEvent 87) (Earlier.new 0%nat) eq_refl)).
Defined.

Lemma negative_reach_never_blocks_witness :
  binds Bench.hall Bench.eye Bench.eye (mkScene [0%nat; 1%nat]) /\
  -60 + collisionMargin (this Bench.hall) < 0 /\
  @attempt Bench.renderer Backward (-60) Bench.hall =
  Ok (tt, with_camera (translateOnAxis (local_axis Backward) (signed Backward (-60)) Bench.eye)
                      Bench.hall).
Proof.
  split; [exact hall_binds|]. split; [reflexivity|].
  apply (negative_reach_never_blocks (R := Bench.renderer) Backward (-60) Bench.hall
           Bench.eye Bench.eye (mkScene [0%nat; 1%nat]) hall_binds).
  reflexivity.
Defined.

Lemma longer_step_is_never_freer_witness :
  window.store (win Bench.hall) !! camera (this Bench.hall) = Some Bench.eye /\
  ~ 50 + collisionMargin (this Bench.hall) == 0 /\
  50 <= 70 /\
  @attempt Bench.renderer Forward 50 Bench.hall = Ok (tt, Bench.hall) /\
  @attempt Bench.renderer Forward 70 Bench.hall = Ok (tt, Bench.hall).
Proof.
  assert (Hn : ~ 50 + collisionMargin (this Bench.hall) == 0)
    by (intros E; vm_compute in E; discriminate E).
  split; [reflexivity|]. split; [exact Hn|].
  split; [apply Qle_bool_iff; reflexivity|].
  exact (longer_step_is_never_freer (R := Bench.renderer) Forward 50 70 Bench.hall
           Bench.eye [0%nat; 1%nat] eq_refl hall_collidables
           ltac:(vm_compute; lia) Hn
           ltac:(apply Qle_bool_iff; reflexivity)).
Defined.

Lemma yaw_accumulates_per_frame_witness :
  sound Bench.hall_walking = true /\
  exists s',
    @run Bench.renderer (map Frame [1 # 60; 1 # 30; 1]) Bench.hall_walking = Ok (tt, s') /\
    theta (this s') = 0 - (1 # 100) - (1 # 100) - (1 # 100).
Proof.
  split; [reflexivity|].
  destruct (yaw_accumulates_per_frame (R := Bench.renderer) [1 # 60; 1 # 30; 1]
              Bench.hall_walking eq_refl) as [s' [E [Ht _]]].
  exists s'. split; [exact E|]. rewrite Ht. reflexivity.
Defined.

